(** * Borealis, GLFW platform layer: a shallow embedding and its properties

  Embedded sources:
  - [library/lib/platforms/glfw/glfw_platform.cpp]  (the platform facade)
  - [library/lib/platforms/glfw/glfw_video.cpp]     (the video context)

  C++ [int] is a 32-bit two's complement integer carried by [Z]; [double]
  and [float] are IEEE 754 binary64 / binary32 values carried by the
  Standard Library's [spec_float]; member functions are computations in a
  state monad over the facade object's fields and the process-wide state
  they touch; calls into GLFW are taken against an abstract window system. *)

From Stdlib Require Import ZArith List String Ascii Bool Lia SpecFloat.
From ExtLib Require Import Structures.Monad Structures.MonadState.
From ExtLib Require Import Data.Monads.StateMonad.
Import ListNotations.
Import MonadNotation.
Local Open Scope monad_scope.
Local Open Scope Z_scope.

(* ===================================================================== *)
(** ** C++ [int] *)
(* ===================================================================== *)

Module CInt.

Definition INT_MIN : Z := - 2 ^ 31.
Definition INT_MAX : Z := 2 ^ 31 - 1.

(** The values an [int] object can hold. *)
Definition is_int (z : Z) : Prop := INT_MIN <= z <= INT_MAX.

(** Reduction of a mathematical result into the 32-bit signed range. *)
Definition wrap (z : Z) : Z := (z + 2 ^ 31) mod 2 ^ 32 - 2 ^ 31.

(** [a + b], [a % b] and [a / b] on [int]: remainder and quotient truncate
    towards zero, as C++ prescribes. *)
Definition add (a b : Z) : Z := wrap (a + b).
Definition rem (a b : Z) : Z := wrap (Z.rem a b).
Definition div (a b : Z) : Z := wrap (Z.quot a b).

(** Contextual conversion of an [int] to [bool], and [!x]. *)
Definition truthy (z : Z) : bool := negb (z =? 0).
Definition lnot (z : Z) : bool := z =? 0.

End CInt.

(* ===================================================================== *)
(** ** C strings and the process environment *)
(* ===================================================================== *)

Module CString.

(** A [char*] is carried by the [string] of the characters before its
    terminating NUL; such a content holds no NUL itself. *)
Definition NUL : ascii := Ascii.zero.

Fixpoint cstring (s : string) : bool :=
  match s with
  | EmptyString => true
  | String c r => negb (Ascii.eqb c NUL) && cstring r
  end.

Definition code (c : ascii) : Z := Z.of_N (N_of_ascii c).

(** [tolower] in the "C" locale (the program never calls [setlocale]):
    only 'A'..'Z' are mapped. *)
Definition tolower (c : Z) : Z :=
  if (65 <=? c) && (c <=? 90) then c + 32 else c.

(** [strcasecmp(s1, s2)]: walk both strings, comparing the lowered
    characters as [unsigned char]; stop at the first difference or at the
    terminator of [s1]. The end of a [string] reads as the terminator. *)
Fixpoint strcasecmp (s1 s2 : string) : Z :=
  match s1, s2 with
  | EmptyString, EmptyString => 0
  | EmptyString, String c2 _ => tolower 0 - tolower (code c2)
  | String c1 _, EmptyString => tolower (code c1) - tolower 0
  | String c1 r1, String c2 r2 =>
      let result := tolower (code c1) - tolower (code c2) in
      if result =? 0
      then if Ascii.eqb c1 NUL then result else strcasecmp r1 r2
      else result
  end.

(** The [std::string] constructor from a C string: copies the characters
    up to the terminator. *)
Fixpoint std_string (s : string) : string :=
  match s with
  | EmptyString => EmptyString
  | String c r => if Ascii.eqb c NUL then EmptyString else String c (std_string r)
  end.

(** [s.c_str()] as a C library reads it: the characters up to the first
    NUL. *)
Definition c_str (s : string) : string := std_string s.

(** The environment block: [NAME=value] entries in order; [getenv] returns
    the first entry of that name, or [nullptr] ([None]). *)
Definition Environ := list (string * string).

Fixpoint getenv (name : string) (env : Environ) : option string :=
  match env with
  | [] => None
  | (n, v) :: rest => if String.eqb n name then Some v else getenv name rest
  end.

(** The spellings of a lower-case word in any letter case, lower case
    first. *)
Definition lower_letter (c : ascii) : bool := (97 <=? code c) && (code c <=? 122).

Definition upcase (c : ascii) : ascii := ascii_of_N (N_of_ascii c - 32).

Fixpoint upcase_string (t : string) : string :=
  match t with
  | EmptyString => EmptyString
  | String l r => String (upcase l) (upcase_string r)
  end.

Fixpoint lower_word (t : string) : bool :=
  match t with
  | EmptyString => true
  | String l r => lower_letter l && lower_word r
  end.

Fixpoint spellings (t : string) : list string :=
  match t with
  | EmptyString => [EmptyString]
  | String l r =>
      map (String l) (spellings r) ++ map (String (upcase l)) (spellings r)
  end.

(** The spellings of "dark" in any letter case. *)
Definition dark_spellings : list string :=
  [ "dark"; "darK"; "daRk"; "daRK"; "dArk"; "dArK"; "dARk"; "dARK";
    "Dark"; "DarK"; "DaRk"; "DaRK"; "DArk"; "DArK"; "DARk"; "DARK" ]%string.

End CString.

(* ===================================================================== *)
(** ** IEEE 754 values: [double] and [float] *)
(* ===================================================================== *)

Module IEEE.
(** [double] is binary64: 53 bits of precision, infinities at exponent
    1024. Operations round to nearest, ties to even ([SFmul], [SFdiv]). *)
Definition prec64 : Z := 53.
Definition emax64 : Z := 1024.
Definition double := spec_float.

(** [float] is binary32; [1.0f] is its unit. *)
Definition float := spec_float.
Definition float_one : float := S754_finite false 8388608 (-23).

(** Conversion of an [int] to [double] (exact: 32 bits fit in 53), the
    literal [1.0], and the two operations the sources use. *)
Definition double_of_int (z : Z) : double := binary_normalize prec64 emax64 z 0 false.
Definition double_one : double := S754_finite false 4503599627370496 (-52).
Definition double_mul : double -> double -> double := SFmul prec64 emax64.
Definition double_div : double -> double -> double := SFdiv prec64 emax64.

End IEEE.

(* ===================================================================== *)
(** ** Constants of the external headers (GLFW 3, OpenGL, nanovg) *)
(* ===================================================================== *)

Module K.
Definition GLFW_TRUE : Z := 1.
Definition GLFW_FALSE : Z := 0.
Definition GLFW_ICONIFIED : Z := 0x00020002.
Definition GLFW_JOYSTICK_HAT_BUTTONS : Z := 0x00050001.
Definition GLFW_STICKY_KEYS : Z := 0x00033002.
Definition GLFW_CLIENT_API : Z := 0x00022001.
Definition GLFW_CONTEXT_VERSION_MAJOR : Z := 0x00022002.
Definition GLFW_CONTEXT_VERSION_MINOR : Z := 0x00022003.
Definition GLFW_OPENGL_FORWARD_COMPAT : Z := 0x00022006.
Definition GLFW_OPENGL_PROFILE : Z := 0x00022008.
Definition GLFW_OPENGL_ES_API : Z := 0x00030002.
Definition GLFW_OPENGL_CORE_PROFILE : Z := 0x00032001.
Definition GL_TRUE : Z := 1.
Definition GL_DEPTH_BUFFER_BIT : Z := 0x00000100.
Definition GL_STENCIL_BUFFER_BIT : Z := 0x00000400.
Definition GL_COLOR_BUFFER_BIT : Z := 0x00004000.
Definition GL_CULL_FACE : Z := 0x0B44.
Definition GL_DEPTH_TEST : Z := 0x0B71.
Definition GL_STENCIL_TEST : Z := 0x0B90.
Definition GL_BLEND : Z := 0x0BE2.
Definition GL_SCISSOR_TEST : Z := 0x0C11.
Definition GL_VENDOR : Z := 0x1F00.
Definition GL_RENDERER : Z := 0x1F01.
Definition GL_VERSION : Z := 0x1F02.
Definition NVG_ANTIALIAS : Z := Z.shiftl 1 0.
Definition NVG_STENCIL_STROKES : Z := Z.shiftl 1 1.
End K.

(* ===================================================================== *)
(** ** Data model *)
(* ===================================================================== *)

Import CInt CString IEEE.

(** The preprocessor symbols the two files branch on. *)
Record Macros := {
  def_PSV : bool;       (* __PSV__ *)
  def_SWITCH : bool;    (* __SWITCH__ *)
  def_WIN32 : bool;     (* _WIN32 *)
  def_APPLE : bool;     (* __APPLE__ *)
  def_linux : bool      (* __linux__ *)
}.

Inductive ThemeVariant := LIGHT | DARK.

(** Opaque handles of the libraries; a C++ pointer is an [option], [None]
    being [nullptr]. *)
Definition GLFWwindow := positive.
Definition NVGcontext := positive.
Definition GLFWmonitor := positive.

(** [struct NVGcolor]: four [float] channels. *)
Record NVGcolor := { col_r : float; col_g : float; col_b : float; col_a : float }.

(** The objects the facade owns. The font loader, the audio player and the
    input manager are classes of other files: only their identity as objects
    matters here (the input manager remembers the window it was built on). *)
Inductive GLFWFontLoader := new_GLFWFontLoader.
Inductive NullAudioPlayer := new_NullAudioPlayer.
Inductive GLFWInputManager := new_GLFWInputManager (window : option GLFWwindow).

(** [class GLFWVideoContext]: its two handles, and the three fields the
    Switch build adds. *)
Record GLFWVideoContext := {
  window : option GLFWwindow;
  nvgContext : option NVGcontext;
  monitor : option GLFWmonitor;
  oldWidth : Z;
  oldHeight : Z
}.

(** What the program does to the outside, in program order: calls into
    the logger, GLFW, OpenGL, nanovg, the shell and the application object,
    and the destruction of owned objects of other classes. *)
Inductive LogArg := ArgInt (z : Z) | ArgDouble (d : double) | ArgString (s : string).

Inductive Effect :=
| Logger_error (fmt : string) (args : list LogArg)
| Logger_info (fmt : string) (args : list LogArg)
| Logger_debug (fmt : string) (args : list LogArg)
| Call_glfwSetErrorCallback
| Call_glfwInitHint (hint value : Z)
| Call_glfwInit (result : Z)
| Call_glfwSetTime (t : double)
| Call_glfwWindowHint (hint value : Z)
| Call_glfwCreateWindow (width height : Z) (title : string) (result : option GLFWwindow)
| Call_stbi_load (path : string)
| Call_glfwSetWindowIcon (w : option GLFWwindow)
| Call_glfwSetInputMode (w : option GLFWwindow) (mode value : Z)
| Call_glfwMakeContextCurrent (w : option GLFWwindow)
| Call_glfwSetFramebufferSizeCallback (w : option GLFWwindow)
| Call_glfwSwapInterval (interval : Z)
| Call_glfwSwapBuffers (w : option GLFWwindow)
| Call_glfwSetWindowSize (w : option GLFWwindow) (width height : Z)
| Call_glfwDestroyWindow (w : option GLFWwindow)
| Call_glfwTerminate
| Call_gladLoadGLLoader
| Call_glViewport (x y width height : Z)
| Call_glClearColor (r g b a : float)
| Call_glClear (mask : Z)
| Call_glDisable (cap : Z)
| Call_nvgCreate (gles2 : bool) (flags : Z) (result : option NVGcontext)
| Call_nvgDelete (gles2 : bool) (ctx : NVGcontext)
| Call_appletSetMediaPlaybackState (state : bool)
| Call_system (cmd : string)
| Application_onWindowResized (width height : Z)
| Delete_fontLoader (o : GLFWFontLoader)
| Delete_audioPlayer (o : NullAudioPlayer)
| Delete_inputManager (o : GLFWInputManager).

(* ===================================================================== *)
(** ** The machine: program state and the window system *)
(* ===================================================================== *)

Section Machine.

Context {World : Type}.

(** Everything a member function can read or write: the two module globals,
    the fields of the [GLFWPlatform] object, the process environment, the
    effects emitted so far (oldest first), and the state of the window system
    and of the other libraries, which the program only reaches through
    calls. *)
Record Machine := {
  battery : Z;                                (* int battery = 50; *)
  scaleFactor : double;                       (* static double scaleFactor = 1.0; *)
  themeVariant : ThemeVariant;
  fontLoader : option GLFWFontLoader;
  audioPlayer : option NullAudioPlayer;
  videoContext : option GLFWVideoContext;
  inputManager : option GLFWInputManager;
  environ : Environ;
  trace : list Effect;
  world : World
}.

Definition set_battery (v : Z) (m : Machine) : Machine :=
  {| battery := v; scaleFactor := scaleFactor m; themeVariant := themeVariant m;
     fontLoader := fontLoader m; audioPlayer := audioPlayer m;
     videoContext := videoContext m; inputManager := inputManager m;
     environ := environ m; trace := trace m; world := world m |}.

Definition set_scaleFactor (v : double) (m : Machine) : Machine :=
  {| battery := battery m; scaleFactor := v; themeVariant := themeVariant m;
     fontLoader := fontLoader m; audioPlayer := audioPlayer m;
     videoContext := videoContext m; inputManager := inputManager m;
     environ := environ m; trace := trace m; world := world m |}.

Definition set_themeVariant (v : ThemeVariant) (m : Machine) : Machine :=
  {| battery := battery m; scaleFactor := scaleFactor m; themeVariant := v;
     fontLoader := fontLoader m; audioPlayer := audioPlayer m;
     videoContext := videoContext m; inputManager := inputManager m;
     environ := environ m; trace := trace m; world := world m |}.

Definition set_fontLoader (v : option GLFWFontLoader) (m : Machine) : Machine :=
  {| battery := battery m; scaleFactor := scaleFactor m; themeVariant := themeVariant m;
     fontLoader := v; audioPlayer := audioPlayer m;
     videoContext := videoContext m; inputManager := inputManager m;
     environ := environ m; trace := trace m; world := world m |}.

Definition set_audioPlayer (v : option NullAudioPlayer) (m : Machine) : Machine :=
  {| battery := battery m; scaleFactor := scaleFactor m; themeVariant := themeVariant m;
     fontLoader := fontLoader m; audioPlayer := v;
     videoContext := videoContext m; inputManager := inputManager m;
     environ := environ m; trace := trace m; world := world m |}.

Definition set_videoContext (v : option GLFWVideoContext) (m : Machine) : Machine :=
  {| battery := battery m; scaleFactor := scaleFactor m; themeVariant := themeVariant m;
     fontLoader := fontLoader m; audioPlayer := audioPlayer m;
     videoContext := v; inputManager := inputManager m;
     environ := environ m; trace := trace m; world := world m |}.

Definition set_inputManager (v : option GLFWInputManager) (m : Machine) : Machine :=
  {| battery := battery m; scaleFactor := scaleFactor m; themeVariant := themeVariant m;
     fontLoader := fontLoader m; audioPlayer := audioPlayer m;
     videoContext := videoContext m; inputManager := v;
     environ := environ m; trace := trace m; world := world m |}.

Definition set_trace (v : list Effect) (m : Machine) : Machine :=
  {| battery := battery m; scaleFactor := scaleFactor m; themeVariant := themeVariant m;
     fontLoader := fontLoader m; audioPlayer := audioPlayer m;
     videoContext := videoContext m; inputManager := inputManager m;
     environ := environ m; trace := v; world := world m |}.

Definition set_world (v : World) (m : Machine) : Machine :=
  {| battery := battery m; scaleFactor := scaleFactor m; themeVariant := themeVariant m;
     fontLoader := fontLoader m; audioPlayer := audioPlayer m;
     videoContext := videoContext m; inputManager := inputManager m;
     environ := environ m; trace := trace m; world := v |}.

(** What lies outside the two files. A call whose result the program uses
    is answered from the [World]; [glfwPollEvents] and [glfwWaitEvents] run
    the callbacks that were registered, so they may change the whole machine;
    [nvgDelete_throws] tells whether deleting a renderer context raises (the
    destructor guards against it); [LOCALE_DEFAULT] is the constant of
    [borealis/core/i18n.hpp]. Nothing is assumed about any of them. *)
Class Libraries := {
  LOCALE_DEFAULT : string;
  nvgDelete_throws : NVGcontext -> World -> bool;
  glfwInit : World -> Z * World;
  glfwCreateWindow : Z -> Z -> string -> World -> option GLFWwindow * World;
  glfwGetWindowAttrib : option GLFWwindow -> Z -> World -> Z;
  glfwWindowShouldClose : option GLFWwindow -> World -> Z;
  glfwGetWindowSize : option GLFWwindow -> World -> Z * Z;
  glfwGetFramebufferSize : option GLFWwindow -> World -> Z * Z;
  glfwGetPrimaryMonitor : World -> option GLFWmonitor;
  glfwGetMonitorName : option GLFWmonitor -> World -> string;
  glfwGetVideoMode : option GLFWmonitor -> World -> Z * Z;
  glGetString : Z -> World -> string;
  nvgCreate : bool -> Z -> World -> option NVGcontext * World;
  glfwPollEvents : Machine -> Machine;
  glfwWaitEvents : Machine -> Machine
}.

Context {L : Libraries}.

(** Member functions are computations over the machine. *)
Definition M : Type -> Type := state Machine.

Definition emit (e : Effect) : M unit :=
  modify (fun m => set_trace (trace m ++ [e]) m) ;; ret tt.

(** Ask the libraries, handing them the world and storing it back. *)
Definition ask {A : Type} (f : World -> A * World) : M A :=
  m <- get ;;
  let r := f (world m) in
  put (set_world (snd r) m) ;; ret (fst r).

Definition look {A : Type} (f : World -> A) : M A :=
  m <- get ;; ret (f (world m)).

(* ===================================================================== *)
(** ** glfw_platform.cpp *)
(* ===================================================================== *)

(** Modelled from the spec: the default member initialiser of
    [GLFWPlatform::themeVariant] is in [glfw_platform.hpp], which is not
    among the sources; the spec has the theme default to light when the
    environment does not select dark. *)
Definition themeVariant_default : ThemeVariant := LIGHT.

(** [GLFWPlatform::GLFWPlatform()]. The pointer fields keep what the machine
    holds for them on entry: their initialisers are in the header too. *)
Definition GLFWPlatform_ctor : M unit :=
  modify (set_themeVariant themeVariant_default) ;;
  (* Init glfw *)
  emit Call_glfwSetErrorCallback ;;
  emit (Call_glfwInitHint K.GLFW_JOYSTICK_HAT_BUTTONS K.GLFW_TRUE) ;;
  ok <- ask glfwInit ;;
  emit (Call_glfwInit ok) ;;
  if lnot ok then
    emit (Logger_error "glfw: failed to initialize" [])
  else
    (* Theme *)
    themeEnv <- gets (fun m => getenv "BOREALIS_THEME" (environ m)) ;;
    match themeEnv with
    | Some s =>
        if lnot (strcasecmp s "DARK")
        then modify (set_themeVariant DARK) ;; ret tt
        else ret tt
    | None => ret tt
    end ;;
    (* Misc *)
    emit (Call_glfwSetTime (S754_zero false)) ;;
    (* Platform impls *)
    modify (set_fontLoader (Some new_GLFWFontLoader)) ;;
    modify (set_audioPlayer (Some new_NullAudioPlayer)) ;;
    ret tt.

Definition canShowBatteryLevel : M bool := ret true.

(** [battery %= 100; battery++; return battery;] *)
Definition getBatteryLevel : M Z :=
  modify (fun m => set_battery (CInt.rem (battery m) 100) m) ;;
  modify (fun m => set_battery (CInt.add (battery m) 1) m) ;;
  gets battery.

Definition isBatteryCharging : M bool := ret true.

Definition hasWirelessConnection : M bool := ret true.

(** [return battery / 20;] *)
Definition getWirelessLevel : M Z :=
  b <- gets battery ;; ret (CInt.div b 20).

Definition getIpAddress : M string := ret "0.0.0.0"%string.

Definition getDnsServer : M string := ret "0.0.0.0"%string.

Definition isApplicationMode : M bool := ret true.

Definition exitToHomeMode (value : bool) : M unit := ret tt.

Definition forceEnableGamePlayRecording : M unit := ret tt.

(** [openBrowser(url)]: each of the three blocks is compiled when its symbol
    is defined. *)
Definition openBrowser (mac : Macros) (url : string) : M unit :=
  emit (Logger_debug "open url: {}" [ArgString url]) ;;
  (if def_APPLE mac then emit (Call_system (c_str ("open " ++ url))) else ret tt) ;;
  (if def_linux mac then emit (Call_system (c_str ("xdg-open " ++ url))) else ret tt) ;;
  (if def_WIN32 mac then emit (Call_system (c_str ("explorer " ++ url))) else ret tt).

Definition getName : M string := ret "GLFW"%string.

Definition getAudioPlayer : M (option NullAudioPlayer) := gets audioPlayer.
Definition getVideoContext : M (option GLFWVideoContext) := gets videoContext.
Definition getInputManager : M (option GLFWInputManager) := gets inputManager.
Definition getFontLoader : M (option GLFWFontLoader) := gets fontLoader.

Definition getThemeVariant : M ThemeVariant := gets themeVariant.

Definition setThemeVariant (theme : ThemeVariant) : M unit :=
  modify (set_themeVariant theme) ;; ret tt.

(** [getLocale()]: the environment is read at every call. *)
Definition getLocale : M string :=
  langEnv <- gets (fun m => getenv "BOREALIS_LANG" (environ m)) ;;
  match langEnv with
  | None => ret LOCALE_DEFAULT
  | Some s => ret (std_string s)
  end.

(** The outcome of a call that loops: it returns a value and leaves a
    machine, or it dereferences a null pointer, or it is still running when
    the fuel is spent. *)
Inductive Run (A : Type) :=
| Done (a : A) (m : Machine)
| Fault
| OutOfFuel.
Arguments Done {A} a m.
Arguments Fault {A}.
Arguments OutOfFuel {A}.

Definition getGLFWWindow (this : GLFWVideoContext) : option GLFWwindow := window this.

Definition getNVGContext (this : GLFWVideoContext) : option NVGcontext := nvgContext this.

(** [mainLoopIteration()]: one unit of fuel per turn of the [do ... while]
    loop. [this->videoContext] is read afresh at each use. *)
Fixpoint mainLoopIteration (fuel : nat) (m : Machine) : Run bool :=
  match fuel with
  | O => OutOfFuel
  | S fuel' =>
      match videoContext m with
      | None => Fault
      | Some vc =>
          let isActive :=
            lnot (glfwGetWindowAttrib (getGLFWWindow vc) K.GLFW_ICONIFIED (world m)) in
          let m1 := if isActive then glfwPollEvents m else glfwWaitEvents m in
          if negb isActive then mainLoopIteration fuel' m1
          else
            match videoContext m1 with
            | None => Fault
            | Some vc1 =>
                Done (lnot (glfwWindowShouldClose (getGLFWWindow vc1) (world m1))) m1
            end
      end
  end.

(** [~GLFWVideoContext()]. *)
Definition GLFWVideoContext_dtor (mac : Macros) (this : GLFWVideoContext) : M unit :=
  match nvgContext this with
  | Some ctx =>
      emit (Call_nvgDelete (def_PSV mac) ctx) ;;
      throws <- look (nvgDelete_throws ctx) ;;
      if throws : bool then emit (Logger_error "Cannot delete nvg Context" []) else ret tt
  | None => ret tt
  end ;;
  emit (Call_glfwDestroyWindow (window this)) ;;
  emit Call_glfwTerminate.

(** [~GLFWPlatform()]: [delete] on a null pointer does nothing. *)
Definition GLFWPlatform_dtor (mac : Macros) : M unit :=
  m <- get ;;
  match fontLoader m with Some o => emit (Delete_fontLoader o) | None => ret tt end ;;
  match audioPlayer m with Some o => emit (Delete_audioPlayer o) | None => ret tt end ;;
  match videoContext m with Some vc => GLFWVideoContext_dtor mac vc | None => ret tt end ;;
  match inputManager m with Some o => emit (Delete_inputManager o) | None => ret tt end.

(* ===================================================================== *)
(** ** glfw_video.cpp *)
(* ===================================================================== *)

(** [glfwWindowFramebufferSizeCallback(window, width, height)]. *)
Definition glfwWindowFramebufferSizeCallback
    (win : option GLFWwindow) (width height : Z) : M unit :=
  if lnot width || lnot height then ret tt
  else
    emit (Call_glViewport 0 0 width height) ;;
    wsize <- look (glfwGetWindowSize win) ;;
    let wWidth := fst wsize in
    let wHeight := snd wsize in
    modify (set_scaleFactor
              (double_div (double_mul (double_of_int width) double_one)
                          (double_of_int wWidth))) ;;
    emit (Logger_info "windows size changed: {} height: {}" [ArgInt wWidth; ArgInt wHeight]) ;;
    emit (Logger_info "framebuffer size changed: fwidth: {} fheight: {}"
                      [ArgInt width; ArgInt height]) ;;
    sf <- gets scaleFactor ;;
    emit (Logger_info "scale factor: {}" [ArgDouble sf]) ;;
    emit (Application_onWindowResized width height).

Definition getScaleFactor : M double := gets scaleFactor.

(** A constructor ends normally or by an exception. *)
Inductive Completion (A : Type) :=
| Normal (a : A)
| Thrown (msg : string).
Arguments Normal {A} a.
Arguments Thrown {A} msg.

(** Modelled from the spec: [brls::fatal] is defined in another file of the
    library; the spec has a fatal initialisation failure logged and startup
    aborted, so the call reports the message and does not return. *)
Definition fatal {A : Type} (msg : string) : M (Completion A) :=
  emit (Logger_error "Fatal error: {}" [ArgString msg]) ;;
  ret (Thrown msg).

(** The window hints of the three builds. *)
Definition windowHints (mac : Macros) : M unit :=
  if def_PSV mac then
    emit (Call_glfwWindowHint K.GLFW_CLIENT_API K.GLFW_OPENGL_ES_API) ;;
    emit (Call_glfwWindowHint K.GLFW_CONTEXT_VERSION_MAJOR 2) ;;
    emit (Call_glfwWindowHint K.GLFW_CONTEXT_VERSION_MINOR 0)
  else if def_SWITCH mac then
    emit (Call_glfwWindowHint K.GLFW_CONTEXT_VERSION_MAJOR 4) ;;
    emit (Call_glfwWindowHint K.GLFW_CONTEXT_VERSION_MINOR 3) ;;
    emit (Call_glfwWindowHint K.GLFW_OPENGL_PROFILE K.GLFW_OPENGL_CORE_PROFILE)
  else
    emit (Call_glfwWindowHint K.GLFW_CONTEXT_VERSION_MAJOR 3) ;;
    emit (Call_glfwWindowHint K.GLFW_CONTEXT_VERSION_MINOR 2) ;;
    emit (Call_glfwWindowHint K.GLFW_OPENGL_FORWARD_COMPAT K.GL_TRUE) ;;
    emit (Call_glfwWindowHint K.GLFW_OPENGL_PROFILE K.GLFW_OPENGL_CORE_PROFILE).

Definition with_window (w : option GLFWwindow) (this : GLFWVideoContext) : GLFWVideoContext :=
  {| window := w; nvgContext := nvgContext this; monitor := monitor this;
     oldWidth := oldWidth this; oldHeight := oldHeight this |}.

Definition with_nvgContext (c : option NVGcontext) (this : GLFWVideoContext) : GLFWVideoContext :=
  {| window := window this; nvgContext := c; monitor := monitor this;
     oldWidth := oldWidth this; oldHeight := oldHeight this |}.

Definition with_monitor (mo : option GLFWmonitor) (this : GLFWVideoContext) : GLFWVideoContext :=
  {| window := window this; nvgContext := nvgContext this; monitor := mo;
     oldWidth := oldWidth this; oldHeight := oldHeight this |}.

Definition with_oldSize (w h : Z) (this : GLFWVideoContext) : GLFWVideoContext :=
  {| window := window this; nvgContext := nvgContext this; monitor := monitor this;
     oldWidth := w; oldHeight := h |}.

(** [GLFWVideoContext::GLFWVideoContext(windowTitle, windowWidth, windowHeight)].
    [fresh] is the object as its member initialisers (in the header) leave it;
    the [uint32_t] sizes are converted to the [int] that [glfwCreateWindow]
    takes. *)
Definition GLFWVideoContext_ctor (mac : Macros) (fresh : GLFWVideoContext)
    (windowTitle : string) (windowWidth windowHeight : Z)
    : M (Completion GLFWVideoContext) :=
  ok <- ask glfwInit ;;
  emit (Call_glfwInit ok) ;;
  if lnot ok then fatal "glfw: failed to initialize"
  else
    (* Create window *)
    windowHints mac ;;
    let width := CInt.wrap windowWidth in
    let height := CInt.wrap windowHeight in
    win <- ask (glfwCreateWindow width height (c_str windowTitle)) ;;
    emit (Call_glfwCreateWindow width height (c_str windowTitle) win) ;;
    let this := with_window win fresh in
    (if def_WIN32 mac then
       emit (Call_stbi_load "resources/icon/bilibili.png") ;;
       emit (Call_glfwSetWindowIcon win)
     else ret tt) ;;
    match win with
    | None =>
        emit (Logger_error "glfw: failed to create window" []) ;;
        emit Call_glfwTerminate ;;
        ret (Normal this)
    | Some _ =>
        (* Configure window *)
        emit (Call_glfwSetInputMode win K.GLFW_STICKY_KEYS K.GLFW_TRUE) ;;
        emit (Call_glfwMakeContextCurrent win) ;;
        emit (Call_glfwSetFramebufferSizeCallback win) ;;
        (if def_PSV mac then ret tt else emit Call_gladLoadGLLoader) ;;
        emit (Call_glfwSwapInterval 1) ;;
        vendor <- look (glGetString K.GL_VENDOR) ;;
        emit (Logger_info "glfw: GL Vendor: {}" [ArgString vendor]) ;;
        renderer <- look (glGetString K.GL_RENDERER) ;;
        emit (Logger_info "glfw: GL Renderer: {}" [ArgString renderer]) ;;
        version <- look (glGetString K.GL_VERSION) ;;
        emit (Logger_info "glfw: GL Version: {}" [ArgString version]) ;;
        (* Initialize nanovg *)
        let flags := Z.lor K.NVG_STENCIL_STROKES K.NVG_ANTIALIAS in
        nvg <- ask (nvgCreate (def_PSV mac) flags) ;;
        emit (Call_nvgCreate (def_PSV mac) flags nvg) ;;
        let this := with_nvgContext nvg this in
        match nvg with
        | None =>
            emit (Logger_error "glfw: unable to init nanovg" []) ;;
            emit Call_glfwTerminate ;;
            ret (Normal this)
        | Some _ =>
            (* Setup scaling *)
            fb <- look (glfwGetFramebufferSize win) ;;
            glfwWindowFramebufferSizeCallback win (fst fb) (snd fb) ;;
            if def_SWITCH mac then
              mo <- look glfwGetPrimaryMonitor ;;
              name <- look (glfwGetMonitorName mo) ;;
              emit (Logger_info "glfw: Monitor: {}" [ArgString name]) ;;
              ret (Normal (with_monitor mo this))
            else ret (Normal this)
        end
    end.

(** [beginFrame()]: the body is compiled for the Switch only. The updated
    object is returned. *)
Definition beginFrame (mac : Macros) (this : GLFWVideoContext) : M GLFWVideoContext :=
  if def_SWITCH mac then
    r <- look (glfwGetVideoMode (monitor this)) ;;
    if negb (oldWidth this =? fst r) || negb (oldHeight this =? snd r) then
      emit (Call_glfwSetWindowSize (window this) (fst r) (snd r)) ;;
      ret (with_oldSize (fst r) (snd r) this)
    else ret this
  else ret this.

Definition endFrame (this : GLFWVideoContext) : M unit :=
  emit (Call_glfwSwapBuffers (window this)).

(** [clear(color)]. *)
Definition clear (color : NVGcolor) : M unit :=
  emit (Call_glClearColor (col_r color) (col_g color) (col_b color) float_one) ;;
  emit (Call_glClear (Z.lor (Z.lor K.GL_COLOR_BUFFER_BIT K.GL_DEPTH_BUFFER_BIT)
                            K.GL_STENCIL_BUFFER_BIT)).

Definition resetState : M unit :=
  emit (Call_glDisable K.GL_CULL_FACE) ;;
  emit (Call_glDisable K.GL_BLEND) ;;
  emit (Call_glDisable K.GL_DEPTH_TEST) ;;
  emit (Call_glDisable K.GL_SCISSOR_TEST) ;;
  emit (Call_glDisable K.GL_STENCIL_TEST).

Definition disableScreenDimming (mac : Macros) (disable : bool) : M unit :=
  if def_SWITCH mac then emit (Call_appletSetMediaPlaybackState disable) else ret tt.

(** [GLFWPlatform::createWindow(windowTitle, windowWidth, windowHeight)]:
    the two fields are assigned when the constructor returns. *)
Definition createWindow (mac : Macros) (fresh : GLFWVideoContext)
    (windowTitle : string) (windowWidth windowHeight : Z) : M (Completion unit) :=
  r <- GLFWVideoContext_ctor mac fresh windowTitle windowWidth windowHeight ;;
  match r with
  | Thrown msg => ret (Thrown msg)
  | Normal vc =>
      modify (set_videoContext (Some vc)) ;;
      modify (set_inputManager (Some (new_GLFWInputManager (getGLFWWindow vc)))) ;;
      ret (Normal tt)
  end.

(* ===================================================================== *)
(** ** Notions the properties are stated with *)
(* ===================================================================== *)

(** [n] calls of [getBatteryLevel] in a row, with the values they return. *)
Fixpoint batteryLevels (n : nat) : M (list Z) :=
  match n with
  | O => ret []
  | S k => v <- getBatteryLevel ;; vs <- batteryLevels k ;; ret (v :: vs)
  end.

(** The machine after [n] returns of [glfwWaitEvents]. *)
Fixpoint afterWaits (n : nat) (m : Machine) : Machine :=
  match n with
  | O => m
  | S k => afterWaits k (glfwWaitEvents m)
  end.

(** What GLFW answers about the facade's window: is it minimized, has its
    closing been requested. [None] when there is no video context to ask
    about. *)
Definition iconified (m : Machine) : option bool :=
  match videoContext m with
  | None => None
  | Some vc => Some (truthy (glfwGetWindowAttrib (getGLFWWindow vc) K.GLFW_ICONIFIED (world m)))
  end.

Definition closeReported (m : Machine) : option bool :=
  match videoContext m with
  | None => None
  | Some vc => Some (truthy (glfwWindowShouldClose (getGLFWWindow vc) (world m)))
  end.

(** The window is found minimized at [n] checks in a row, each followed by
    a [glfwWaitEvents], and not minimized at the next check; the video
    context is still there after the [glfwPollEvents] that follows. *)
Fixpoint restoredAfter (n : nat) (m : Machine) : bool :=
  match n with
  | O =>
      match iconified m with
      | Some false =>
          match videoContext (glfwPollEvents m) with Some _ => true | None => false end
      | _ => false
      end
  | S k =>
      match iconified m with
      | Some true => restoredAfter k (glfwWaitEvents m)
      | _ => false
      end
  end.

(** [keeps f c]: running [c] does not change what [f] reads off the
    machine. *)
Definition keeps {A B : Type} (f : Machine -> B) (c : M A) : Prop :=
  forall m, f (snd (runState c m)) = f m.

(** [post c m Q]: the value and the machine that [c] yields from [m]
    satisfy [Q]. *)
Definition post {A : Type} (c : M A) (m : Machine) (Q : A -> Machine -> Prop) : Prop :=
  Q (fst (runState c m)) (snd (runState c m)).


(** The worlds a successful construction goes through: after [glfwInit],
    after [glfwCreateWindow], after the renderer context's creation. *)
Definition ctor_window (title : string) (w h : Z) (wd : World) :=
  glfwCreateWindow (CInt.wrap w) (CInt.wrap h) (c_str title) (snd (glfwInit wd)).

Definition ctor_nvg (mac : Macros) (title : string) (w h : Z) (wd : World) :=
  nvgCreate (def_PSV mac) (Z.lor K.NVG_STENCIL_STROKES K.NVG_ANTIALIAS)
            (snd (ctor_window title w h wd)).

(** One call of a session: the fuel it is given, the number of checks that
    find the window minimized, the machine it starts from. *)
Definition pump (c : nat * nat * Machine) : Run bool :=
  mainLoopIteration (fst (fst c)) (snd c).

Definition pumpOk (c : nat * nat * Machine) : Prop :=
  restoredAfter (snd (fst c)) (snd c) = true /\ (snd (fst c) < fst (fst c))%nat.

Definition pumpReport (c : nat * nat * Machine) : option bool :=
  closeReported (glfwPollEvents (afterWaits (snd (fst c)) (snd c))).

(** The value a call returned, if it returned. *)
Definition returned {A : Type} (r : Run A) : option A :=
  match r with
  | Done a _ => Some a
  | _ => None
  end.

(** The capability and query operations of the facade, and their answers. *)
Inductive Query :=
| Q_canShowBatteryLevel | Q_isBatteryCharging | Q_hasWirelessConnection
| Q_getWirelessLevel | Q_getIpAddress | Q_getDnsServer | Q_isApplicationMode
| Q_getName | Q_getLocale | Q_getThemeVariant.

Inductive Answer :=
| A_bool (b : bool) | A_int (z : Z) | A_string (s : string) | A_theme (t : ThemeVariant).

Definition query (q : Query) : M Answer :=
  match q with
  | Q_canShowBatteryLevel => b <- canShowBatteryLevel ;; ret (A_bool b)
  | Q_isBatteryCharging => b <- isBatteryCharging ;; ret (A_bool b)
  | Q_hasWirelessConnection => b <- hasWirelessConnection ;; ret (A_bool b)
  | Q_getWirelessLevel => z <- getWirelessLevel ;; ret (A_int z)
  | Q_getIpAddress => s <- getIpAddress ;; ret (A_string s)
  | Q_getDnsServer => s <- getDnsServer ;; ret (A_string s)
  | Q_isApplicationMode => b <- isApplicationMode ;; ret (A_bool b)
  | Q_getName => s <- getName ;; ret (A_string s)
  | Q_getLocale => s <- getLocale ;; ret (A_string s)
  | Q_getThemeVariant => t <- getThemeVariant ;; ret (A_theme t)
  end.

(** The calls a driver can make on the facade and on its video context;
    [mainLoopIteration] is apart, as it may not return. *)
Inductive Call :=
| C_ctor
| C_createWindow (mac : Macros) (fresh : GLFWVideoContext) (title : string) (w h : Z)
| C_query (q : Query)
| C_getBatteryLevel
| C_exitToHomeMode (value : bool)
| C_forceEnableGamePlayRecording
| C_openBrowser (mac : Macros) (url : string)
| C_setThemeVariant (t : ThemeVariant)
| C_beginFrame (mac : Macros) (this : GLFWVideoContext)
| C_endFrame (this : GLFWVideoContext)
| C_clear (color : NVGcolor)
| C_resetState
| C_disableScreenDimming (mac : Macros) (disable : bool)
| C_framebufferSize (win : option GLFWwindow) (width height : Z)
| C_dtor (mac : Macros).

Definition perform (c : Call) : M unit :=
  match c with
  | C_ctor => GLFWPlatform_ctor
  | C_createWindow mac fresh title w h => createWindow mac fresh title w h ;; ret tt
  | C_query q => query q ;; ret tt
  | C_getBatteryLevel => getBatteryLevel ;; ret tt
  | C_exitToHomeMode v => exitToHomeMode v
  | C_forceEnableGamePlayRecording => forceEnableGamePlayRecording
  | C_openBrowser mac url => openBrowser mac url
  | C_setThemeVariant t => setThemeVariant t
  | C_beginFrame mac this => beginFrame mac this ;; ret tt
  | C_endFrame this => endFrame this
  | C_clear color => clear color
  | C_resetState => resetState
  | C_disableScreenDimming mac d => disableScreenDimming mac d
  | C_framebufferSize win w h => glfwWindowFramebufferSizeCallback win w h
  | C_dtor mac => GLFWPlatform_dtor mac
  end.

(** One step of a run of the program: a call that returns, or a
    [mainLoopIteration] that returns. *)
Inductive step : Machine -> Machine -> Prop :=
| step_call (c : Call) (m : Machine) : step m (execState (perform c) m)
| step_pump (fuel : nat) (m : Machine) (r : bool) (m' : Machine) :
    mainLoopIteration fuel m = Done r m' -> step m m'.

Inductive reaches (m0 : Machine) : Machine -> Prop :=
| reaches_start : reaches m0 m0
| reaches_step (m m' : Machine) : reaches m0 m -> step m m' -> reaches m0 m'.

End Machine.

Arguments Done {World A} a m.
Arguments Fault {World A}.
Arguments OutOfFuel {World A}.
Arguments Normal {A} a.
Arguments Thrown {A} msg.

(** The value the spec gives for the next battery level: (previous+1) mod
    100, with 0 mapped to 1. *)
Definition claimed_next (previous : Z) : Z :=
  let v := (previous + 1) mod 100 in if v =? 0 then 1 else v.

Definition is_dark (s : string) : bool := existsb (String.eqb s) dark_spellings.

(* ===================================================================== *)
(** ** A small window system to run the definitions on *)
(* ===================================================================== *)

(** GLFW starts or not ([dw_init]); the window stays minimized for the next
    [dw_minimized] waits; [dw_close] is the close flag; sizes are fixed. *)
Record DemoWorld := {
  dw_init : Z;
  dw_minimized : nat;
  dw_close : Z;
  dw_windowSize : Z * Z;
  dw_framebufferSize : Z * Z;
  dw_window : option GLFWwindow;
  dw_nvg : option NVGcontext;
  dw_videoMode : Z * Z
}.

Definition demo_wait (w : DemoWorld) : DemoWorld :=
  {| dw_init := dw_init w; dw_minimized := Nat.pred (dw_minimized w);
     dw_close := dw_close w; dw_windowSize := dw_windowSize w;
     dw_framebufferSize := dw_framebufferSize w; dw_window := dw_window w;
     dw_nvg := dw_nvg w; dw_videoMode := dw_videoMode w |}.

Definition demoLibraries : @Libraries DemoWorld :=
  {| LOCALE_DEFAULT := "en-US";
     nvgDelete_throws := fun _ _ => false;
     glfwInit := fun w => (dw_init w, w);
     glfwCreateWindow := fun _ _ _ w => (dw_window w, w);
     glfwGetWindowAttrib := fun _ attrib w =>
       if attrib =? K.GLFW_ICONIFIED
       then match dw_minimized w with O => K.GLFW_FALSE | S _ => K.GLFW_TRUE end
       else 0;
     glfwWindowShouldClose := fun _ w => dw_close w;
     glfwGetWindowSize := fun _ w => dw_windowSize w;
     glfwGetFramebufferSize := fun _ w => dw_framebufferSize w;
     glfwGetPrimaryMonitor := fun _ => Some 1%positive;
     glfwGetMonitorName := fun _ _ => "demo"%string;
     glfwGetVideoMode := fun _ w => dw_videoMode w;
     glGetString := fun _ _ => "demo"%string;
     nvgCreate := fun _ _ w => (dw_nvg w, w);
     glfwPollEvents := fun m => m;
     glfwWaitEvents := fun m => set_world (demo_wait (world m)) m |}.

Definition demoWorld : DemoWorld :=
  {| dw_init := K.GLFW_TRUE; dw_minimized := 0; dw_close := 0;
     dw_windowSize := (1280, 720); dw_framebufferSize := (2560, 1440);
     dw_window := Some 7%positive; dw_nvg := Some 9%positive;
     dw_videoMode := (1920, 1080) |}.

(** The same, but GLFW fails to start. *)
Definition failingWorld : DemoWorld :=
  {| dw_init := K.GLFW_FALSE; dw_minimized := 0; dw_close := 0;
     dw_windowSize := (1280, 720); dw_framebufferSize := (2560, 1440);
     dw_window := Some 7%positive; dw_nvg := Some 9%positive;
     dw_videoMode := (1920, 1080) |}.

(** The same as [demoWorld], minimized for the next [n] waits, with the
    close flag [c]. *)
Definition minimizedWorld (n : nat) (c : Z) : DemoWorld :=
  {| dw_init := K.GLFW_TRUE; dw_minimized := n; dw_close := c;
     dw_windowSize := (1280, 720); dw_framebufferSize := (2560, 1440);
     dw_window := Some 7%positive; dw_nvg := Some 9%positive;
     dw_videoMode := (1920, 1080) |}.

(** Variants of [demoWorld]: a window of width zero; no window can be
    created; no renderer context can be created. *)
Definition zeroWidthWorld : DemoWorld :=
  {| dw_init := K.GLFW_TRUE; dw_minimized := 0; dw_close := 0;
     dw_windowSize := (0, 720); dw_framebufferSize := (2560, 1440);
     dw_window := Some 7%positive; dw_nvg := Some 9%positive;
     dw_videoMode := (1920, 1080) |}.

Definition noWindowWorld : DemoWorld :=
  {| dw_init := K.GLFW_TRUE; dw_minimized := 0; dw_close := 0;
     dw_windowSize := (0, 0); dw_framebufferSize := (0, 0);
     dw_window := None; dw_nvg := Some 9%positive;
     dw_videoMode := (1920, 1080) |}.

Definition noRendererWorld : DemoWorld :=
  {| dw_init := K.GLFW_TRUE; dw_minimized := 0; dw_close := 0;
     dw_windowSize := (1280, 720); dw_framebufferSize := (2560, 1440);
     dw_window := Some 7%positive; dw_nvg := None;
     dw_videoMode := (1920, 1080) |}.

(** The demonstration libraries with a window system in which waiting for
    events changes nothing: a window that is minimized stays so. *)
Definition frozenLibraries : @Libraries DemoWorld :=
  {| LOCALE_DEFAULT := "en-US";
     nvgDelete_throws := fun _ _ => false;
     glfwInit := fun w => (dw_init w, w);
     glfwCreateWindow := fun _ _ _ w => (dw_window w, w);
     glfwGetWindowAttrib := fun _ attrib w =>
       if attrib =? K.GLFW_ICONIFIED
       then match dw_minimized w with O => K.GLFW_FALSE | S _ => K.GLFW_TRUE end
       else 0;
     glfwWindowShouldClose := fun _ w => dw_close w;
     glfwGetWindowSize := fun _ w => dw_windowSize w;
     glfwGetFramebufferSize := fun _ w => dw_framebufferSize w;
     glfwGetPrimaryMonitor := fun _ => Some 1%positive;
     glfwGetMonitorName := fun _ _ => "demo"%string;
     glfwGetVideoMode := fun _ w => dw_videoMode w;
     glGetString := fun _ _ => "demo"%string;
     nvgCreate := fun _ _ w => (dw_nvg w, w);
     glfwPollEvents := fun m => m;
     glfwWaitEvents := fun m => m |}.

Definition demoVideoContext : GLFWVideoContext :=
  {| window := Some 7%positive; nvgContext := Some 9%positive; monitor := None;
     oldWidth := 0; oldHeight := 0 |}.

Definition freshVideoContext : GLFWVideoContext :=
  {| window := None; nvgContext := None; monitor := None; oldWidth := 0; oldHeight := 0 |}.

(** The machine at program start: the globals at their initialisers, no
    object built yet. *)
Definition startMachine (env : Environ) (w : DemoWorld) : @Machine DemoWorld :=
  {| battery := 50; scaleFactor := double_one; themeVariant := LIGHT;
     fontLoader := None; audioPlayer := None; videoContext := None;
     inputManager := None; environ := env; trace := []; world := w |}.

(** A machine with all four sub-components built. *)
Definition runningMachine (w : DemoWorld) : @Machine DemoWorld :=
  {| battery := 50; scaleFactor := double_one; themeVariant := LIGHT;
     fontLoader := Some new_GLFWFontLoader; audioPlayer := Some new_NullAudioPlayer;
     videoContext := Some demoVideoContext;
     inputManager := Some (new_GLFWInputManager (Some 7%positive));
     environ := []; trace := []; world := w |}.

Definition desktop : Macros :=
  {| def_PSV := false; def_SWITCH := false; def_WIN32 := false;
     def_APPLE := false; def_linux := true |}.

Definition switch : Macros :=
  {| def_PSV := false; def_SWITCH := true; def_WIN32 := false;
     def_APPLE := false; def_linux := false |}.

(* ===================================================================== *)
(** * Properties *)
(* ===================================================================== *)

(** ** Arithmetic on [int] *)

Module CIntFacts.

Lemma wrap_id z : is_int z -> wrap z = z.
Proof.
  unfold is_int, INT_MIN, INT_MAX, wrap. intros H.
  rewrite Z.mod_small by lia. lia.
Qed.

Lemma wrap_is_int z : is_int (wrap z).
Proof.
  unfold is_int, INT_MIN, INT_MAX, wrap.
  pose proof (Z.mod_pos_bound (z + 2 ^ 31) (2 ^ 32) ltac:(lia)). lia.
Qed.

Lemma rem_100_bounds a : -99 <= Z.rem a 100 <= 99.
Proof.
  pose proof (Z.rem_bound_abs a 100 ltac:(lia)). lia.
Qed.

Lemma rem_100 a : rem a 100 = Z.rem a 100.
Proof.
  unfold rem. apply wrap_id.
  pose proof (rem_100_bounds a). unfold is_int, INT_MIN, INT_MAX. lia.
Qed.

Lemma succ_rem_100 a : add (rem a 100) 1 = Z.rem a 100 + 1.
Proof.
  rewrite rem_100. unfold add. apply wrap_id.
  pose proof (rem_100_bounds a). unfold is_int, INT_MIN, INT_MAX. lia.
Qed.

End CIntFacts.

(** ** C strings *)

Module CStringFacts.

Lemma std_string_cstring s : cstring s = true -> std_string s = s.
Proof.
  induction s as [| c r IH]; simpl; [reflexivity |].
  intros H. apply andb_prop in H as [Hc Hr].
  destruct (Ascii.eqb c NUL); [discriminate |].
  now rewrite IH.
Qed.



Lemma code_range c : 0 <= code c < 256.
Proof.
  unfold code. pose proof (N_ascii_bounded c) as H. lia.
Qed.

Lemma code_eq c d : code c = code d -> c = d.
Proof.
  unfold code. intros H. apply N2Z.inj in H.
  rewrite <- (ascii_N_embedding c), <- (ascii_N_embedding d). now rewrite H.
Qed.

Lemma code_upcase l : lower_letter l = true -> code (upcase l) = code l - 32.
Proof.
  unfold lower_letter, upcase, code. intros H.
  apply andb_prop in H as [H1 H2]. apply Z.leb_le in H1, H2.
  pose proof (N_ascii_bounded l) as Hb.
  rewrite N_ascii_embedding by lia. lia.
Qed.

Lemma tolower_upcase l : lower_letter l = true -> tolower (code (upcase l)) = code l.
Proof.
  intros H. rewrite (code_upcase l H). unfold lower_letter in H.
  apply andb_prop in H as [H1 H2]. apply Z.leb_le in H1, H2.
  unfold tolower.
  replace ((65 <=? code l - 32) && (code l - 32 <=? 90)) with true; [lia |].
  symmetry. apply andb_true_intro. split; apply Z.leb_le; lia.
Qed.

Lemma existsb_eqb_nil_cons (a : ascii) (l : list string) :
  existsb (String.eqb EmptyString) (map (String a) l) = false.
Proof. induction l as [| x l IH]; [reflexivity | exact IH]. Qed.

Lemma existsb_eqb_cons (c a : ascii) (r : string) (l : list string) :
  existsb (String.eqb (String c r)) (map (String a) l)
  = Ascii.eqb c a && existsb (String.eqb r) l.
Proof.
  induction l as [| x l IH]; cbn [map existsb].
  - now rewrite andb_false_r.
  - rewrite IH. cbn [String.eqb]. destruct (Ascii.eqb c a); reflexivity.
Qed.

(** [strcasecmp] against the upper-case spelling of a word answers 0 exactly
    on the spellings of the word. *)
Lemma strcasecmp_spellings (t : string) :
  lower_word t = true ->
  forall s, cstring s = true ->
    lnot (strcasecmp s (upcase_string t)) = existsb (String.eqb s) (spellings t).
Proof.
  induction t as [| l t IH]; intros Ht s Hs.
  - destruct s as [| c r]; [reflexivity |].
    cbn [cstring] in Hs. apply andb_prop in Hs as [Hc _].
    cbn [upcase_string strcasecmp spellings existsb String.eqb].
    rewrite orb_false_r. unfold lnot. apply Z.eqb_neq.
    intros H. unfold tolower in H. cbn in H.
    pose proof (code_range c) as Hr.
    destruct ((65 <=? code c) && (code c <=? 90)) eqn:E.
    + lia.
    + assert (c = NUL) by (apply code_eq; cbn; lia). subst c. discriminate Hc.
  - cbn [lower_word] in Ht. apply andb_prop in Ht as [Hl Ht].
    pose proof (tolower_upcase l Hl) as Hup.
    pose proof Hl as Hl'. unfold lower_letter in Hl'.
    apply andb_prop in Hl' as [H1 H2]. apply Z.leb_le in H1, H2.
    cbn [upcase_string spellings]. rewrite existsb_app.
    destruct s as [| c r].
    + rewrite !existsb_eqb_nil_cons. cbn [strcasecmp]. rewrite Hup.
      unfold lnot. apply Z.eqb_neq. cbn. lia.
    + cbn [cstring] in Hs. apply andb_prop in Hs as [Hc Hr].
      rewrite !existsb_eqb_cons. cbn [strcasecmp]. rewrite Hup.
      destruct (Ascii.eqb c NUL) eqn:EN; [discriminate Hc |].
      destruct (Ascii.eqb_spec c l) as [-> | Hcl].
      * replace (tolower (code l)) with (code l)
          by (unfold tolower;
              replace ((65 <=? code l) && (code l <=? 90)) with false;
              [reflexivity | symmetry; apply andb_false_iff; right; apply Z.leb_gt; lia]).
        rewrite Z.sub_diag. cbn [Z.eqb]. rewrite (IH Ht r Hr).
        cbn [andb].
        destruct (existsb (String.eqb r) (spellings t)); [reflexivity |].
        now rewrite andb_false_r.
      * destruct (Ascii.eqb_spec c (upcase l)) as [-> | Hcu].
        -- rewrite Hup, Z.sub_diag. cbn [Z.eqb]. rewrite (IH Ht r Hr). reflexivity.
        -- cbn [andb orb].
           destruct (tolower (code c) - code l =? 0) eqn:E; [| exact E].
           exfalso. apply Z.eqb_eq in E.
           assert (Hcase : code c = code l \/ code c = code l - 32).
           { unfold tolower in E.
             destruct ((65 <=? code c) && (code c <=? 90)); lia. }
           destruct Hcase as [Hcase | Hcase].
           ++ apply Hcl, code_eq, Hcase.
           ++ apply Hcu, code_eq. rewrite (code_upcase l Hl). exact Hcase.
Qed.

Lemma strcasecmp_DARK (s : string) :
  cstring s = true -> lnot (strcasecmp s "DARK") = is_dark s.
Proof. intros Hs. exact (strcasecmp_spellings "dark" eq_refl s Hs). Qed.

End CStringFacts.

(** ** binary64: conversions of [int], products with [1.0], quotients of
    power-of-two multiples *)

Module IEEEFacts.

Example float_one_is_one : float_one = SFone 24 128.
Proof. reflexivity. Qed.

Example double_one_is_one : double_one = double_of_int 1.
Proof. reflexivity. Qed.

Lemma digits2_pos_iter_xO (k p : positive) :
  Zpos (digits2_pos (Pos.iter xO p k)) = Zpos (digits2_pos p) + Zpos k.
Proof.
  induction k as [| k IH] using Pos.peano_ind.
  - simpl. lia.
  - rewrite Pos.iter_succ. simpl digits2_pos. lia.
Qed.

Lemma digits2_pos_bound (n : nat) : forall p : positive,
  Zpos p < 2 ^ Z.of_nat n -> Zpos (digits2_pos p) <= Z.of_nat n.
Proof.
  induction n as [| n IH]; intros p Hp.
  - simpl in Hp. lia.
  - rewrite Nat2Z.inj_succ, Z.pow_succ_r in Hp by lia.
    destruct p as [q | q |]; simpl digits2_pos.
    + specialize (IH q). lia.
    + specialize (IH q). lia.
    + lia.
Qed.

Lemma shr_exact_52 (m : positive) :
  iter_pos shr_1 52 (Build_shr_record (Zpos (4503599627370496 * m)) false false)
  = Build_shr_record (Zpos m) false false.
Proof. reflexivity. Qed.

Lemma digits2_pos_mul_52 (m : positive) :
  Zpos (digits2_pos (4503599627370496 * m)) = Zpos (digits2_pos m) + 52.
Proof. cbn [Pos.mul digits2_pos]. lia. Qed.

Lemma shr_fexp_canonical m e :
  canonical_mantissa prec64 emax64 m e = true ->
  shr_fexp prec64 emax64 (Zpos m) e loc_Exact
  = (Build_shr_record (Zpos m) false false, e).
Proof.
  unfold canonical_mantissa. intros Hc. apply Z.eqb_eq in Hc.
  unfold shr_fexp. cbn [Zdigits2]. rewrite Hc, Z.sub_diag. reflexivity.
Qed.

Lemma round_exact s mx ex m e :
  shr_fexp prec64 emax64 mx ex loc_Exact
  = (Build_shr_record (Zpos m) false false, e) ->
  bounded prec64 emax64 m e = true ->
  binary_round_aux prec64 emax64 s mx ex loc_Exact = S754_finite s m e.
Proof.
  unfold bounded. intros Hs H. apply andb_prop in H as [Hc Hb].
  unfold binary_round_aux. rewrite Hs.
  cbn [shr_m loc_of_shr_record round_nearest_even].
  rewrite (shr_fexp_canonical m e Hc). cbn [shr_m].
  now rewrite Hb.
Qed.

Lemma shr_fexp_mul_52 m e :
  canonical_mantissa prec64 emax64 m e = true ->
  shr_fexp prec64 emax64 (Zpos (4503599627370496 * m)) (e + -52) loc_Exact
  = (Build_shr_record (Zpos m) false false, e).
Proof.
  unfold canonical_mantissa. intros Hc. apply Z.eqb_eq in Hc.
  unfold shr_fexp. unfold Zdigits2. rewrite digits2_pos_mul_52.
  replace (Z.pos (digits2_pos m) + 52 + (e + -52))
    with (Z.pos (digits2_pos m) + e) by lia.
  rewrite Hc. replace (e - (e + -52)) with 52 by lia.
  unfold shr, shr_record_of_loc. rewrite shr_exact_52.
  f_equal. lia.
Qed.

Lemma double_mul_one_r (x : double) :
  valid_binary prec64 emax64 x = true -> double_mul x double_one = x.
Proof.
  destruct x as [s | s | | s m e]; cbn [valid_binary]; intros H.
  - now destruct s.
  - now destruct s.
  - reflexivity.
  - unfold double_mul, double_one, SFmul.
    rewrite xorb_false_r, Pos.mul_comm.
    apply round_exact; [| exact H].
    apply shr_fexp_mul_52.
    unfold bounded in H. now apply andb_prop in H as [Hc _].
Qed.

Lemma binary_round_small s (p : positive) :
  Zpos (digits2_pos p) < 53 ->
  exists m e, binary_round prec64 emax64 s p 0 = S754_finite s m e
              /\ bounded prec64 emax64 m e = true.
Proof.
  intros Hd. unfold binary_round, shl_align.
  assert (Hf : fexp prec64 emax64 (Zpos (digits2_pos p) + 0)
               = Zpos (digits2_pos p) - 53).
  { unfold fexp, emin, prec64, emax64. lia. }
  rewrite Hf.
  destruct (Zpos (digits2_pos p) - 53 - 0) as [| k | k] eqn:Ek; try lia.
  exists (Pos.iter xO p k), (Zpos (digits2_pos p) - 53).
  assert (Hb : bounded prec64 emax64 (Pos.iter xO p k) (Zpos (digits2_pos p) - 53) = true).
  { unfold bounded, canonical_mantissa. rewrite digits2_pos_iter_xO.
    apply andb_true_intro. split.
    - apply Z.eqb_eq. unfold fexp, emin, prec64, emax64. lia.
    - apply Z.leb_le. unfold prec64, emax64. lia. }
  split; [| exact Hb].
  apply round_exact; [| exact Hb].
  apply shr_fexp_canonical.
  unfold bounded in Hb. now apply andb_prop in Hb as [Hc _].
Qed.

Lemma double_of_int_valid (z : Z) :
  - 2 ^ 31 <= z <= 2 ^ 31 - 1 ->
  valid_binary prec64 emax64 (double_of_int z) = true.
Proof.
  intros Hz. unfold double_of_int, binary_normalize.
  destruct z as [| p | p]; [reflexivity | |].
  - pose proof (digits2_pos_bound 32 p ltac:(change (2 ^ Z.of_nat 32) with 4294967296; lia)) as Hd.
    destruct (binary_round_small false p ltac:(lia)) as (m & e & -> & Hb).
    exact Hb.
  - pose proof (digits2_pos_bound 32 p ltac:(change (2 ^ Z.of_nat 32) with 4294967296; lia)) as Hd.
    destruct (binary_round_small true p ltac:(lia)) as (m & e & -> & Hb).
    exact Hb.
Qed.

Lemma double_of_int_mul_one (z : Z) :
  - 2 ^ 31 <= z <= 2 ^ 31 - 1 ->
  double_mul (double_of_int z) double_one = double_of_int z.
Proof. intros Hz. apply double_mul_one_r, double_of_int_valid, Hz. Qed.

Lemma div_eucl_shiftl (m : positive) (k : Z) :
  0 <= k -> Z.div_eucl (Z.shiftl (Zpos m) k) (Zpos m) = (2 ^ k, 0).
Proof.
  intros Hk. rewrite Z.shiftl_mul_pow2 by exact Hk.
  rewrite (surjective_pairing (Z.div_eucl (Zpos m * 2 ^ k) (Zpos m))).
  change (fst (Z.div_eucl (Zpos m * 2 ^ k) (Zpos m))) with (Zpos m * 2 ^ k / Zpos m).
  change (snd (Z.div_eucl (Zpos m * 2 ^ k) (Zpos m))) with ((Zpos m * 2 ^ k) mod Zpos m).
  rewrite (Z.mul_comm (Zpos m)), Z.div_mul, Z.mod_mul by lia. reflexivity.
Qed.

Lemma new_location_zero (n : Z) : new_location n 0 = loc_Exact.
Proof. unfold new_location. destruct (Z.even n); reflexivity. Qed.

(** A finite value divided by itself is 1.0. *)
Lemma double_div_same (s : bool) (m : positive) (e : Z) :
  double_div (S754_finite s m e) (S754_finite s m e) = double_one.
Proof.
  unfold double_div, SFdiv, SFdiv_core_binary.
  rewrite Z.sub_diag. rewrite Z.sub_diag.
  change (Z.min (fexp prec64 emax64 0) 0) with (-53).
  change (0 - -53) with 53.
  cbv beta iota zeta.
  change (match 53 with 0 => Zpos m | Zpos _ => Z.shiftl (Zpos m) 53 | Zneg _ => 0 end)
    with (Z.shiftl (Zpos m) 53).
  rewrite div_eucl_shiftl by lia. rewrite new_location_zero.
  rewrite xorb_nilpotent. reflexivity.
Qed.

Lemma Zpos_iter_xO (p k : positive) : Zpos (Pos.iter xO p k) = Zpos p * 2 ^ Zpos k.
Proof.
  induction k as [| k IH] using Pos.peano_ind.
  - cbn [Pos.iter]. change (2 ^ 1) with 2. lia.
  - rewrite Pos.iter_succ, Pos2Z.inj_xO, IH, Pos2Z.inj_succ, Z.pow_succ_r by lia. lia.
Qed.

Lemma binary_round_explicit (s : bool) (p k : positive) :
  Zpos (digits2_pos p) - 53 = Zneg k ->
  binary_round prec64 emax64 s p 0 = S754_finite s (Pos.iter xO p k) (Zneg k).
Proof.
  intros Hk. unfold binary_round, shl_align.
  assert (Hf : fexp prec64 emax64 (Zpos (digits2_pos p) + 0) = Zneg k).
  { unfold fexp, emin, prec64, emax64. lia. }
  rewrite Hf. cbn [Z.sub Z.opp Z.add].
  assert (Hb : bounded prec64 emax64 (Pos.iter xO p k) (Zneg k) = true).
  { unfold bounded, canonical_mantissa. rewrite digits2_pos_iter_xO.
    apply andb_true_intro. split.
    - apply Z.eqb_eq. unfold fexp, emin, prec64, emax64. lia.
    - apply Z.leb_le. unfold prec64, emax64. lia. }
  apply round_exact; [| exact Hb].
  apply shr_fexp_canonical.
  unfold bounded in Hb. now apply andb_prop in Hb as [Hc _].
Qed.

Lemma double_div_pow2 (s : bool) (m : positive) (e j : Z) :
  0 <= j <= 1000 ->
  double_div (S754_finite s m (e + j)) (S754_finite s m e)
  = S754_finite false 4503599627370496 (j - 52).
Proof.
  intros Hj. unfold double_div, SFdiv, SFdiv_core_binary.
  replace (Zdigits2 (Zpos m) + (e + j) - (Zdigits2 (Zpos m) + e)) with j by lia.
  replace (e + j - e) with j by lia.
  replace (Z.min (fexp prec64 emax64 j) j) with (j - 53)
    by (unfold fexp, emin, prec64, emax64; lia).
  replace (j - (j - 53)) with 53 by lia.
  cbv beta iota zeta.
  change (match 53 with 0 => Zpos m | Zpos _ => Z.shiftl (Zpos m) 53 | Zneg _ => 0 end)
    with (Z.shiftl (Zpos m) 53).
  rewrite div_eucl_shiftl by lia. rewrite new_location_zero, xorb_nilpotent.
  change (2 ^ 53) with 9007199254740992.
  unfold binary_round_aux.
  assert (H1 : shr_fexp prec64 emax64 9007199254740992 (j - 53) loc_Exact
               = (Build_shr_record 4503599627370496 false false, j - 52)).
  { unfold shr_fexp. change (Zdigits2 9007199254740992) with 54.
    replace (fexp prec64 emax64 (54 + (j - 53)) - (j - 53)) with 1
      by (unfold fexp, emin, prec64, emax64; lia).
    unfold shr. cbn [iter_pos shr_record_of_loc shr_1 orb]. f_equal. lia. }
  rewrite H1. cbn [shr_m loc_of_shr_record round_nearest_even].
  assert (H2 : shr_fexp prec64 emax64 4503599627370496 (j - 52) loc_Exact
               = (Build_shr_record 4503599627370496 false false, j - 52)).
  { unfold shr_fexp. change (Zdigits2 4503599627370496) with 53.
    replace (fexp prec64 emax64 (53 + (j - 52)) - (j - 52)) with 0
      by (unfold fexp, emin, prec64, emax64; lia).
    reflexivity. }
  rewrite H2. cbn [shr_m].
  replace (j - 52 <=? emax64 - prec64) with true; [reflexivity |].
  symmetry. apply Z.leb_le. unfold emax64, prec64. lia.
Qed.

(** [2^j * W] converts to the mantissa of [W] with an exponent [j] higher. *)
Lemma double_of_int_shift (p q k : positive) (j : Z) :
  0 <= j -> Zpos q = Zpos p * 2 ^ j ->
  Zpos (digits2_pos p) - 53 = Zneg k ->
  Zpos (digits2_pos q) < 53 ->
  Zpos (digits2_pos q) = Zpos (digits2_pos p) + j ->
  double_of_int (Zpos q) = S754_finite false (Pos.iter xO p k) (Zneg k + j).
Proof.
  intros Hj Hq Hk Hd Hdq.
  unfold double_of_int, binary_normalize.
  destruct (Zpos (digits2_pos q) - 53) as [| kq | kq] eqn:Ekq; try lia.
  rewrite (binary_round_explicit false q kq Ekq).
  f_equal.
  - apply Pos2Z.inj. rewrite !Zpos_iter_xO, Hq.
    replace (Zpos k) with (j + Zpos kq) by lia.
    rewrite Z.pow_add_r by lia. lia.
  - lia.
Qed.

Lemma digits2_pos_bounds (p : positive) :
  2 ^ (Zpos (digits2_pos p) - 1) <= Zpos p < 2 ^ Zpos (digits2_pos p).
Proof.
  induction p as [p IH | p IH |]; cbn [digits2_pos].
  - rewrite Pos2Z.inj_succ, Z.pow_succ_r by lia.
    replace (Z.succ (Zpos (digits2_pos p)) - 1) with (Z.succ (Zpos (digits2_pos p) - 1)) by lia.
    rewrite Z.pow_succ_r by lia. lia.
  - rewrite Pos2Z.inj_succ, Z.pow_succ_r by lia.
    replace (Z.succ (Zpos (digits2_pos p)) - 1) with (Z.succ (Zpos (digits2_pos p) - 1)) by lia.
    rewrite Z.pow_succ_r by lia. lia.
  - cbn. lia.
Qed.

Lemma digits2_pos_unique (p : positive) (d : Z) :
  2 ^ (d - 1) <= Zpos p < 2 ^ d -> Zpos (digits2_pos p) = d.
Proof.
  intros [Hlo Hhi]. pose proof (digits2_pos_bounds p) as [Blo Bhi].
  destruct (Z.lt_trichotomy (Zpos (digits2_pos p)) d) as [Hlt | [Heq | Hgt]];
    [exfalso | exact Heq | exfalso].
  - assert (2 ^ Zpos (digits2_pos p) <= 2 ^ (d - 1)) by (apply Z.pow_le_mono_r; lia).
    lia.
  - assert (0 <= d \/ d < 0) as [Hd | Hd] by lia.
    + assert (2 ^ d <= 2 ^ (Zpos (digits2_pos p) - 1)) by (apply Z.pow_le_mono_r; lia).
      lia.
    + rewrite (Z.pow_neg_r 2 d Hd) in Hhi. lia.
Qed.

Lemma digits2_pos_shift (p q : positive) (j : Z) :
  0 <= j -> Zpos q = Zpos p * 2 ^ j ->
  Zpos (digits2_pos q) = Zpos (digits2_pos p) + j.
Proof.
  intros Hj Hq. apply digits2_pos_unique. rewrite Hq.
  pose proof (digits2_pos_bounds p) as [Blo Bhi].
  replace (Zpos (digits2_pos p) + j - 1) with (Zpos (digits2_pos p) - 1 + j) by lia.
  rewrite !Z.pow_add_r by lia.
  pose proof (Z.pow_pos_nonneg 2 j ltac:(lia) Hj).
  split; [apply Z.mul_le_mono_nonneg_r | apply Z.mul_lt_mono_pos_r]; lia.
Qed.

(** The quotient of [W * 2^j] by [W], both [int], is [2^j] exactly. *)
Lemma double_div_int_pow2 (W j : Z) :
  0 < W -> 0 <= j -> W * 2 ^ j <= 2 ^ 31 - 1 ->
  double_div (double_of_int (W * 2 ^ j)) (double_of_int W) = double_of_int (2 ^ j).
Proof.
  intros HW Hj Hmax.
  pose proof (Z.pow_pos_nonneg 2 j ltac:(lia) Hj) as Hpow.
  assert (Hj30 : j <= 30).
  { destruct (Z.le_gt_cases j 30) as [H | H]; [exact H | exfalso].
    assert (2 ^ 31 <= 2 ^ j) by (apply Z.pow_le_mono_r; lia). nia. }
  destruct W as [| p |]; try lia.
  destruct (Zpos p * 2 ^ j) as [| q |] eqn:Eq; try lia.
  destruct (2 ^ j) as [| t |] eqn:Et; try lia.
  pose proof (digits2_pos_shift p q j Hj ltac:(rewrite Et; lia)) as Hdq.
  pose proof (digits2_pos_shift 1 t j Hj ltac:(rewrite Et; lia)) as Hdt.
  cbn [digits2_pos] in Hdt.
  pose proof (digits2_pos_bound 31 q ltac:(change (2 ^ Z.of_nat 31) with (2 ^ 31); lia)) as Hq31.
  change (Z.of_nat 31) with 31 in Hq31.
  destruct (Zpos (digits2_pos p) - 53) as [| k |k] eqn:Ek; try lia.
  rewrite (double_of_int_shift p q k j Hj ltac:(rewrite Et; lia) Ek ltac:(lia) Hdq).
  rewrite (double_of_int_shift p p k 0 ltac:(lia) ltac:(lia) Ek ltac:(lia) ltac:(lia)).
  rewrite (double_of_int_shift 1 t 52 j Hj ltac:(rewrite Et; lia) eq_refl ltac:(lia) Hdt).
  rewrite Z.add_0_r. rewrite double_div_pow2 by lia.
  f_equal. lia.
Qed.

Lemma double_of_int_finite (z : Z) :
  z <> 0 -> - 2 ^ 31 <= z <= 2 ^ 31 - 1 ->
  exists m e, double_of_int z = S754_finite (z <? 0) m e.
Proof.
  intros Hz Hr. unfold double_of_int, binary_normalize.
  destruct z as [| p | p]; [congruence | |].
  - pose proof (digits2_pos_bound 32 p ltac:(change (2 ^ Z.of_nat 32) with 4294967296; lia)) as Hd.
    destruct (binary_round_small false p ltac:(lia)) as (m & e & -> & _). now exists m, e.
  - pose proof (digits2_pos_bound 32 p ltac:(change (2 ^ Z.of_nat 32) with 4294967296; lia)) as Hd.
    destruct (binary_round_small true p ltac:(lia)) as (m & e & -> & _). now exists m, e.
Qed.

End IEEEFacts.

(* ===================================================================== *)
(** ** Which computations leave a part of the machine alone *)
(* ===================================================================== *)

Section Frames.

Context {World : Type} {L : @Libraries World}.
Implicit Types m : @Machine World.

Lemma keeps_ret {A B : Type} (f : @Machine World -> B) (a : A) : keeps f (ret a).
Proof. intros m. reflexivity. Qed.

Lemma keeps_bind {A A' B : Type} (f : @Machine World -> B) (c : M A) (k : A -> M A') :
  keeps f c -> (forall a, keeps f (k a)) -> keeps f (bind c k).
Proof.
  intros Hc Hk m. cbn. specialize (Hc m).
  destruct (runState c m) as [a m1]. cbn in Hc. rewrite <- Hc. apply Hk.
Qed.

Lemma keeps_get {B : Type} (f : @Machine World -> B) : keeps f (get : M Machine).
Proof. intros m. reflexivity. Qed.

Lemma keeps_gets {A B : Type} (f : @Machine World -> B) (g : Machine -> A) :
  keeps f (gets g : M A).
Proof. intros m. reflexivity. Qed.

Lemma keeps_modify {B : Type} (f : @Machine World -> B) (g : Machine -> Machine) :
  (forall m, f (g m) = f m) -> keeps f (modify g : M Machine).
Proof. intros Hg m. cbn. apply Hg. Qed.

Lemma keeps_emit {B : Type} (f : @Machine World -> B) (e : Effect) :
  (forall t m, f (set_trace t m) = f m) -> keeps f (emit e).
Proof. intros Hf m. cbn. apply Hf. Qed.

Lemma keeps_ask {A B : Type} (f : @Machine World -> B) (g : World -> A * World) :
  (forall w m, f (set_world w m) = f m) -> keeps f (ask g).
Proof. intros Hf m. cbn. apply Hf. Qed.

Lemma keeps_look {A B : Type} (f : @Machine World -> B) (g : World -> A) : keeps f (look g).
Proof. intros m. reflexivity. Qed.

Lemma post_ret {A : Type} (a : A) m (Q : A -> Machine -> Prop) :
  Q a m -> post (ret a) m Q.
Proof. intros H. exact H. Qed.

Lemma post_bind {A B : Type} (c : M A) (k : A -> M B) m (Q : B -> Machine -> Prop) :
  post c m (fun a m1 => post (k a) m1 Q) -> post (bind c k) m Q.
Proof.
  unfold post. cbn. destruct (runState c m) as [a m1]. cbn. intros H. exact H.
Qed.

Lemma post_get m (Q : Machine -> Machine -> Prop) : Q m m -> post get m Q.
Proof. intros H. exact H. Qed.

Lemma post_gets {A : Type} (g : Machine -> A) m (Q : A -> Machine -> Prop) :
  Q (g m) m -> post (gets g) m Q.
Proof. intros H. exact H. Qed.

Lemma post_modify (g : Machine -> Machine) m (Q : Machine -> Machine -> Prop) :
  Q m (g m) -> post (modify g) m Q.
Proof. intros H. exact H. Qed.

Lemma post_emit (e : Effect) m (Q : unit -> Machine -> Prop) :
  Q tt (set_trace (trace m ++ [e]) m) -> post (emit e) m Q.
Proof. intros H. exact H. Qed.

Lemma post_ask {A : Type} (g : World -> A * World) m (Q : A -> Machine -> Prop) :
  Q (fst (g (world m))) (set_world (snd (g (world m))) m) -> post (ask g) m Q.
Proof. intros H. exact H. Qed.

Lemma post_look {A : Type} (g : World -> A) m (Q : A -> Machine -> Prop) :
  Q (g (world m)) m -> post (look g) m Q.
Proof. intros H. exact H. Qed.

End Frames.

(** Read the fields of an updated machine. *)
Ltac fields :=
  cbn [battery scaleFactor themeVariant fontLoader audioPlayer videoContext
       inputManager environ trace world
       set_battery set_scaleFactor set_themeVariant set_fontLoader set_audioPlayer
       set_videoContext set_inputManager set_trace set_world
       window nvgContext monitor oldWidth oldHeight
       with_window with_nvgContext with_monitor with_oldSize getGLFWWindow fst snd] in *.

(** Walk through a computation from a machine given field by field, one
    primitive at a time, splitting at each branch. *)
Ltac wp :=
  repeat
    (lazymatch goal with
     | |- post (bind _ _) _ _ => apply post_bind
     | |- post (ret _) _ _ => apply post_ret
     | |- post (emit _) _ _ => apply post_emit
     | |- post (ask _) _ _ => apply post_ask
     | |- post (look _) _ _ => apply post_look
     | |- post get _ _ => apply post_get
     | |- post (gets _) _ _ => apply post_gets
     | |- post (modify _) _ _ => apply post_modify
     | |- post (match ?x with _ => _ end) _ _ => destruct x eqn:?
     end; cbv beta iota zeta; fields).

(** Decompose a computation along its binds and branches. *)
Ltac keeps_tac :=
  repeat
    lazymatch goal with
    | |- keeps _ (bind _ _) => apply keeps_bind; [| intros ?]
    | |- keeps _ (ret _) => apply keeps_ret
    | |- keeps _ (emit _) => apply keeps_emit; intros; reflexivity
    | |- keeps _ (ask _) => apply keeps_ask; intros; reflexivity
    | |- keeps _ (look _) => apply keeps_look
    | |- keeps _ get => apply keeps_get
    | |- keeps _ (gets _) => apply keeps_gets
    | |- keeps _ (modify _) => apply keeps_modify; intros; reflexivity
    | |- keeps _ (match ?x with _ => _ end) => destruct x
    end.

Ltac unfold_queries :=
  unfold canShowBatteryLevel, isBatteryCharging, hasWirelessConnection,
    getWirelessLevel, getIpAddress, getDnsServer, isApplicationMode, getName,
    getLocale, getThemeVariant.

(* ===================================================================== *)
(** ** The battery counter, the queries, the theme and the locale *)
(* ===================================================================== *)

Section FacadeFacts.

Context {World : Type} {L : @Libraries World}.
Implicit Types m : @Machine World.

Lemma getBatteryLevel_run m :
  runState getBatteryLevel m
  = (Z.rem (battery m) 100 + 1, set_battery (Z.rem (battery m) 100 + 1) m).
Proof.
  unfold getBatteryLevel. cbn.
  rewrite CIntFacts.succ_rem_100. reflexivity.
Qed.

Lemma batteryLevels_succ (n : nat) m :
  runState (batteryLevels (S n)) m
  = (fst (runState getBatteryLevel m)
       :: fst (runState (batteryLevels n) (snd (runState getBatteryLevel m))),
     snd (runState (batteryLevels n) (snd (runState getBatteryLevel m)))).
Proof.
  cbn [batteryLevels]. cbn.
  destruct (runState (batteryLevels n) _) as [vs m2]. reflexivity.
Qed.

Lemma batteryLevels_closed_form (n : nat) : forall m,
  0 <= battery m ->
  fst (runState (batteryLevels n) m)
  = map (fun k => (battery m + Z.of_nat k) mod 100 + 1) (seq 0 n).
Proof.
  induction n as [| n IH]; intros m Hb; [reflexivity |].
  rewrite batteryLevels_succ, getBatteryLevel_run.
  cbn [fst snd seq map].
  rewrite Z.rem_mod_nonneg by lia.
  rewrite Z.add_0_r. f_equal.
  rewrite IH by (cbn; pose proof (Z.mod_pos_bound (battery m) 100); lia).
  rewrite <- seq_shift, map_map. apply map_ext. intros k. cbn [battery set_battery].
  f_equal. rewrite Nat2Z.inj_succ.
  replace (battery m mod 100 + 1 + Z.of_nat k) with (battery m mod 100 + (1 + Z.of_nat k)) by lia.
  rewrite Z.add_mod_idemp_l by lia. f_equal. lia.
Qed.

(** C1 (as amended): whatever the counter holds, a call stores and returns
    (counter rem 100) + 1, the remainder truncating as in C++; so from any
    non-negative counter the k-th next call returns ((counter + k) mod 100) + 1:
    the values run through 1..100 (100 included) and then wrap to 1. *)
Theorem getBatteryLevel_cycle m (n : nat) :
  runState getBatteryLevel m
  = (Z.rem (battery m) 100 + 1, set_battery (Z.rem (battery m) 100 + 1) m)
  /\ (0 <= battery m ->
      fst (runState (batteryLevels n) m)
      = map (fun k => (battery m + Z.of_nat k) mod 100 + 1) (seq 0 n)).
Proof.
  split; [apply getBatteryLevel_run | apply batteryLevels_closed_form].
Qed.

Lemma keeps_callback {B : Type} (f : @Machine World -> B) win width height :
  (forall t m, f (set_trace t m) = f m) ->
  (forall v m, f (set_scaleFactor v m) = f m) ->
  keeps f (glfwWindowFramebufferSizeCallback win width height).
Proof.
  intros Ht Hs. unfold glfwWindowFramebufferSizeCallback.
  repeat
    lazymatch goal with
    | |- keeps _ (bind _ _) => apply keeps_bind; [| intros ?]
    | |- keeps _ (ret _) => apply keeps_ret
    | |- keeps _ (emit _) => apply keeps_emit; exact Ht
    | |- keeps _ (look _) => apply keeps_look
    | |- keeps _ (gets _) => apply keeps_gets
    | |- keeps _ (modify _) => apply keeps_modify; intros; apply Hs
    | |- keeps _ (match ?x with _ => _ end) => destruct x
    end.
Qed.

Lemma keeps_video_dtor {B : Type} (f : @Machine World -> B) mac this :
  (forall t m, f (set_trace t m) = f m) ->
  keeps f (GLFWVideoContext_dtor mac this).
Proof.
  intros Ht. unfold GLFWVideoContext_dtor.
  repeat
    lazymatch goal with
    | |- keeps _ (bind _ _) => apply keeps_bind; [| intros ?]
    | |- keeps _ (ret _) => apply keeps_ret
    | |- keeps _ (emit _) => apply keeps_emit; exact Ht
    | |- keeps _ (look _) => apply keeps_look
    | |- keeps _ (match ?x with _ => _ end) => destruct x
    end.
Qed.

Lemma keeps_battery_video_ctor mac fresh title w h :
  keeps battery (GLFWVideoContext_ctor mac fresh title w h).
Proof.
  unfold GLFWVideoContext_ctor, windowHints, fatal.
  keeps_tac; apply keeps_callback; reflexivity.
Qed.

(** Every call but [getBatteryLevel] leaves the counter alone. *)
Lemma perform_battery (c : Call) :
  c <> C_getBatteryLevel -> keeps battery (perform c).
Proof.
  intros Hc. destruct c; try congruence; cbn [perform].
  - unfold GLFWPlatform_ctor. keeps_tac.
  - unfold createWindow. keeps_tac. apply keeps_battery_video_ctor.
  - destruct q; cbn [query]; unfold_queries; keeps_tac.
  - unfold exitToHomeMode. keeps_tac.
  - unfold forceEnableGamePlayRecording. keeps_tac.
  - unfold openBrowser. keeps_tac.
  - unfold setThemeVariant. keeps_tac.
  - unfold beginFrame. keeps_tac.
  - unfold endFrame. keeps_tac.
  - unfold clear. keeps_tac.
  - unfold resetState. keeps_tac.
  - unfold disableScreenDimming. keeps_tac.
  - apply keeps_callback; reflexivity.
  - unfold GLFWPlatform_dtor. keeps_tac; apply keeps_video_dtor; reflexivity.
Qed.

(** The event pump leaves alone whatever the callbacks run by GLFW leave
    alone. *)
Lemma mainLoopIteration_keeps {B : Type} (f : @Machine World -> B) :
  (forall m, f (glfwPollEvents m) = f m) ->
  (forall m, f (glfwWaitEvents m) = f m) ->
  forall fuel m r m', mainLoopIteration fuel m = Done r m' -> f m' = f m.
Proof.
  intros Hp Hw. induction fuel as [| fuel IH]; intros m r m' H; [discriminate |].
  cbn [mainLoopIteration] in H.
  destruct (videoContext m) as [vc |]; [| discriminate].
  destruct (lnot _); cbn [negb] in H.
  - destruct (videoContext (glfwPollEvents m)); [| discriminate].
    injection H as _ <-. apply Hp.
  - rewrite (IH _ _ _ H). apply Hw.
Qed.

(** From its initial value 50 the counter stays within 0..100. *)
Lemma reaches_battery m0 m :
  (forall x, battery (glfwPollEvents x) = battery x) ->
  (forall x, battery (glfwWaitEvents x) = battery x) ->
  battery m0 = 50 -> reaches m0 m -> 0 <= battery m <= 100.
Proof.
  intros Hp Hw H0 Hr. induction Hr as [| m m' Hr IH Hs]; [lia |].
  destruct Hs as [c m | fuel m r m' Hrun].
  - unfold execState.
    destruct c;
      try (match goal with
           | |- context [perform ?c] =>
               rewrite (perform_battery c ltac:(discriminate) m); exact IH
           end).
    cbn -[CInt.add CInt.rem]. rewrite CIntFacts.succ_rem_100.
    rewrite Z.rem_mod_nonneg by lia.
    pose proof (Z.mod_pos_bound (battery m) 100). lia.
  - rewrite (mainLoopIteration_keeps battery Hp Hw _ _ _ _ Hrun). exact IH.
Qed.

(** C4: in every state the program reaches from the counter's initial value,
    [getWirelessLevel] returns floor(battery / 20) for the counter's current
    value and changes nothing (GLFW's callbacks are taken not to write the
    counter, which no callback of these files does). *)
Theorem getWirelessLevel_floor m0 m :
  (forall x, battery (glfwPollEvents x) = battery x) ->
  (forall x, battery (glfwWaitEvents x) = battery x) ->
  battery m0 = 50 -> reaches m0 m ->
  runState getWirelessLevel m = (battery m / 20, m).
Proof.
  intros Hp Hw H0 Hr. pose proof (reaches_battery m0 m Hp Hw H0 Hr) as Hb.
  unfold getWirelessLevel. cbn. f_equal. unfold CInt.div.
  rewrite Z.quot_div_nonneg by lia.
  apply CIntFacts.wrap_id. unfold is_int, INT_MIN, INT_MAX.
  pose proof (Z.div_pos (battery m) 20). 
  assert (battery m / 20 <= 5) by (apply Z.div_le_upper_bound; lia). lia.
Qed.

(** C8: every capability or query operation leaves the whole machine as it
    was; [getBatteryLevel] alone writes, and only the counter, which it sets
    from (counter rem 100) by an increment, so that the counter changes at
    every call. *)
Theorem queries_frame m :
  (forall q, snd (runState (query q) m) = m)
  /\ snd (runState getBatteryLevel m) = set_battery (Z.rem (battery m) 100 + 1) m
  /\ battery (snd (runState getBatteryLevel m)) <> battery m.
Proof.
  split; [| split].
  - intros q. destruct q; try reflexivity.
    cbn. destruct (getenv "BOREALIS_LANG" (environ m)); reflexivity.
  - now rewrite getBatteryLevel_run.
  - rewrite getBatteryLevel_run. cbn.
    pose proof (Z.rem_mod_eq_0 (battery m) 100 ltac:(lia)).
    pose proof (Z.quot_rem' (battery m) 100). lia.
Qed.

(** C6: [getLocale] returns the compiled-in default when [BOREALIS_LANG] is
    unset, and otherwise the variable's value as it is, whatever it is; the
    machine is not changed. *)
Theorem getLocale_env m :
  (getenv "BOREALIS_LANG" (environ m) = None ->
   runState getLocale m = (LOCALE_DEFAULT, m))
  /\ (forall s, getenv "BOREALIS_LANG" (environ m) = Some s -> cstring s = true ->
      runState getLocale m = (s, m)).
Proof.
  split.
  - intros H. unfold getLocale. cbn. now rewrite H.
  - intros s H Hs. unfold getLocale. cbn. rewrite H. cbn.
    now rewrite (CStringFacts.std_string_cstring s Hs).
Qed.

Lemma ctor_theme m :
  themeVariant (snd (runState GLFWPlatform_ctor m))
  = if lnot (fst (glfwInit (world m))) then LIGHT
    else match getenv "BOREALIS_THEME" (environ m) with
         | Some s => if lnot (strcasecmp s "DARK") then DARK else LIGHT
         | None => LIGHT
         end.
Proof.
  unfold GLFWPlatform_ctor. cbn.
  destruct (lnot (fst (glfwInit (world m)))); [reflexivity |].
  cbn. destruct (getenv "BOREALIS_THEME" (environ m)) as [s |]; [| reflexivity].
  destruct (lnot (strcasecmp s "DARK")); reflexivity.
Qed.

(** C5 (as amended): when GLFW initialises, construction selects DARK if
    [BOREALIS_THEME] is "dark" in any letter case and LIGHT if it is unset,
    empty or anything else; when GLFW fails to initialise the constructor
    returns before it reads the variable, and the variant is LIGHT; after
    [setThemeVariant t] the getter returns [t]. *)
Theorem theme_selection m :
  (truthy (fst (glfwInit (world m))) = true ->
     (getenv "BOREALIS_THEME" (environ m) = None ->
        themeVariant (snd (runState GLFWPlatform_ctor m)) = LIGHT)
     /\ (forall s, getenv "BOREALIS_THEME" (environ m) = Some s -> cstring s = true ->
        themeVariant (snd (runState GLFWPlatform_ctor m))
        = if is_dark s then DARK else LIGHT))
  /\ (truthy (fst (glfwInit (world m))) = false ->
      themeVariant (snd (runState GLFWPlatform_ctor m)) = LIGHT)
  /\ (forall t, fst (runState (setThemeVariant t ;; getThemeVariant) m) = t).
Proof.
  unfold truthy. split; [| split].
  - intros Hok. apply negb_true_iff in Hok.
    split.
    + intros He. rewrite ctor_theme. unfold lnot. now rewrite Hok, He.
    + intros s He Hs. rewrite ctor_theme. unfold lnot at 1. rewrite Hok, He.
      now rewrite (CStringFacts.strcasecmp_DARK s Hs).
  - intros Hok. apply negb_false_iff in Hok.
    rewrite ctor_theme. unfold lnot. now rewrite Hok.
  - intros t. reflexivity.
Qed.

End FacadeFacts.

(* ===================================================================== *)
(** ** The video context: scale factor, clearing, teardown *)
(* ===================================================================== *)

Section VideoFacts.

Context {World : Type} {L : @Libraries World}.
Implicit Types m : @Machine World.

Lemma callback_ignored win width height m :
  width = 0 \/ height = 0 ->
  runState (glfwWindowFramebufferSizeCallback win width height) m = (tt, m).
Proof.
  intros H. unfold glfwWindowFramebufferSizeCallback.
  replace (lnot width || lnot height) with true; [reflexivity |].
  symmetry. apply orb_true_iff. unfold lnot.
  destruct H as [-> | ->]; [left | right]; reflexivity.
Qed.

Lemma callback_scaleFactor win width height m :
  width <> 0 -> height <> 0 ->
  scaleFactor (snd (runState (glfwWindowFramebufferSizeCallback win width height) m))
  = double_div (double_mul (double_of_int width) double_one)
               (double_of_int (fst (glfwGetWindowSize win (world m)))).
Proof.
  intros Hw Hh. unfold glfwWindowFramebufferSizeCallback.
  replace (lnot width || lnot height) with false; [reflexivity |].
  symmetry. apply orb_false_iff. unfold lnot.
  split; apply Z.eqb_neq; assumption.
Qed.

(** C2: for a window of width W > 0 and a framebuffer of F_w x F_h, both
    positive, the callback sets the scale factor to the binary64 quotient
    F_w / W (the conversions and the multiplication by 1.0 are exact, the
    division is the one rounding), which [getScaleFactor] then returns; when
    F_w or F_h is zero the call changes nothing at all. *)
Theorem framebuffer_scale_factor win (W Hgt F_w F_h : Z) m :
  (is_int F_w -> is_int F_h -> 0 < W -> 0 < F_w -> 0 < F_h ->
   glfwGetWindowSize win (world m) = (W, Hgt) ->
   let m' := snd (runState (glfwWindowFramebufferSizeCallback win F_w F_h) m) in
   scaleFactor m' = double_div (double_of_int F_w) (double_of_int W)
   /\ fst (runState getScaleFactor m') = double_div (double_of_int F_w) (double_of_int W))
  /\ (F_w = 0 \/ F_h = 0 ->
      snd (runState (glfwWindowFramebufferSizeCallback win F_w F_h) m) = m).
Proof.
  split.
  - intros Hi _ HW HF Hh Hsize m'.
    assert (Hs : scaleFactor m' = double_div (double_of_int F_w) (double_of_int W)).
    { subst m'. rewrite callback_scaleFactor by lia.
      rewrite Hsize. cbn [fst].
      now rewrite IEEEFacts.double_of_int_mul_one by exact Hi. }
    split; [exact Hs | exact Hs].
  - intros H. now rewrite callback_ignored.
Qed.

(** C10: [clear] passes the colour's red, green and blue to [glClearColor]
    with an alpha of 1.0 whatever the colour's own alpha, and then clears the
    colour, depth and stencil buffers; nothing else happens. *)
Theorem clear_opaque (r g b a : float) m :
  snd (runState (clear {| col_r := r; col_g := g; col_b := b; col_a := a |}) m)
  = set_trace
      (trace m
       ++ [Call_glClearColor r g b float_one;
           Call_glClear (Z.lor (Z.lor K.GL_COLOR_BUFFER_BIT K.GL_DEPTH_BUFFER_BIT)
                               K.GL_STENCIL_BUFFER_BIT)]) m.
Proof.
  unfold clear. cbn. rewrite <- app_assoc. reflexivity.
Qed.

Lemma video_dtor_trace mac this m :
  snd (runState (GLFWVideoContext_dtor mac this) m)
  = set_trace
      (trace m
       ++ match nvgContext this with
          | Some ctx =>
              Call_nvgDelete (def_PSV mac) ctx
              :: (if nvgDelete_throws ctx (world m)
                  then [Logger_error "Cannot delete nvg Context" []] else [])
          | None => []
          end
       ++ [Call_glfwDestroyWindow (window this); Call_glfwTerminate]) m.
Proof.
  unfold GLFWVideoContext_dtor.
  destruct (nvgContext this) as [ctx |]; cbn.
  - destruct (nvgDelete_throws ctx (world m)); cbn;
      now rewrite <- !app_assoc.
  - now rewrite <- !app_assoc.
Qed.

(** C9: the destructor deletes the font loader, then the audio player, then
    the video context (the effects of its own destructor come there, ending
    with the window destroyed and GLFW terminated), then the input manager. *)
Theorem dtor_order mac m f a v i :
  fontLoader m = Some f -> audioPlayer m = Some a ->
  videoContext m = Some v -> inputManager m = Some i ->
  trace (snd (runState (GLFWPlatform_dtor mac) m))
  = trace m
    ++ [Delete_fontLoader f; Delete_audioPlayer a]
    ++ trace (snd (runState (GLFWVideoContext_dtor mac v) (set_trace [] m)))
    ++ [Delete_inputManager i].
Proof.
  intros Hf Ha Hv Hi. rewrite video_dtor_trace. cbn [trace set_trace world app].
  unfold GLFWPlatform_dtor. cbn. rewrite Hf, Ha, Hv, Hi. cbn.
  destruct (nvgContext v) as [ctx |]; cbn.
  - destruct (nvgDelete_throws ctx (world m)); cbn;
      rewrite <- !app_assoc; reflexivity.
  - rewrite <- !app_assoc. reflexivity.
Qed.

End VideoFacts.

(* ===================================================================== *)
(** ** The event pump *)
(* ===================================================================== *)

Section PumpFacts.

Context {World : Type} {L : @Libraries World}.
Implicit Types m : @Machine World.

Lemma iconified_lnot m vc :
  videoContext m = Some vc ->
  iconified m
  = Some (negb (lnot (glfwGetWindowAttrib (getGLFWWindow vc) K.GLFW_ICONIFIED (world m)))).
Proof. intros H. unfold iconified, truthy, lnot. now rewrite H. Qed.

Lemma closeReported_lnot m vc :
  videoContext m = Some vc ->
  closeReported m = Some (negb (lnot (glfwWindowShouldClose (getGLFWWindow vc) (world m)))).
Proof. intros H. unfold closeReported, truthy, lnot. now rewrite H. Qed.

(** If the window is restored after [n] waits, the call returns after them
    and one poll, with the negation of what GLFW then says of the close
    request. *)
Lemma mainLoopIteration_restored (n : nat) : forall fuel m,
  restoredAfter n m = true -> (n < fuel)%nat ->
  exists b,
    closeReported (glfwPollEvents (afterWaits n m)) = Some b
    /\ mainLoopIteration fuel m = Done (negb b) (glfwPollEvents (afterWaits n m)).
Proof.
  induction n as [| n IH]; intros fuel m Hr Hf;
    (destruct fuel as [| fuel]; [lia |]);
    cbn [restoredAfter] in Hr; cbn [mainLoopIteration afterWaits];
    destruct (videoContext m) as [vc |] eqn:Ev;
    try (unfold iconified in Hr; rewrite Ev in Hr; discriminate Hr);
    rewrite (iconified_lnot m vc Ev) in Hr;
    destruct (lnot (glfwGetWindowAttrib (getGLFWWindow vc) K.GLFW_ICONIFIED (world m)));
    cbn [negb] in Hr |- *; try discriminate Hr.
  - destruct (videoContext (glfwPollEvents m)) as [vc1 |] eqn:Ev1; [| discriminate Hr].
    exists (negb (lnot (glfwWindowShouldClose (getGLFWWindow vc1) (world (glfwPollEvents m))))).
    split; [apply closeReported_lnot, Ev1 |].
    now rewrite negb_involutive.
  - apply IH; [exact Hr | lia].
Qed.

(** Conversely, a call that returns has seen the window restored after some
    number of waits below its fuel. *)
Lemma mainLoopIteration_returns (fuel : nat) : forall m r m',
  mainLoopIteration fuel m = Done r m' ->
  exists n, (n < fuel)%nat /\ restoredAfter n m = true
            /\ m' = glfwPollEvents (afterWaits n m)
            /\ closeReported m' = Some (negb r).
Proof.
  induction fuel as [| fuel IH]; intros m r m' H; [discriminate H |].
  cbn [mainLoopIteration] in H.
  destruct (videoContext m) as [vc |] eqn:Ev; [| discriminate H].
  destruct (lnot (glfwGetWindowAttrib (getGLFWWindow vc) K.GLFW_ICONIFIED (world m))) eqn:Ea;
    cbn [negb] in H.
  - destruct (videoContext (glfwPollEvents m)) as [vc1 |] eqn:Ev1; [| discriminate H].
    injection H as <- <-. exists O. repeat split.
    + lia.
    + cbn [restoredAfter]. rewrite (iconified_lnot m vc Ev), Ea. cbn [negb].
      now rewrite Ev1.
    + now rewrite (closeReported_lnot _ vc1 Ev1).
  - destruct (IH _ _ _ H) as (n & Hn & Hr & Hm & Hc).
    exists (S n). repeat split.
    + lia.
    + cbn [restoredAfter]. rewrite (iconified_lnot m vc Ev), Ea. exact Hr.
    + exact Hm.
    + exact Hc.
Qed.

(** C7: a call returns exactly when, for some n, the window was found
    minimized at n checks in a row, each answered by a blocking
    [glfwWaitEvents], and not minimized at the next, answered by one
    [glfwPollEvents]; the machine it leaves is the one after those n waits and
    that poll, and it returns only then. *)
Theorem mainLoopIteration_loop (fuel : nat) m (r : bool) m' :
  mainLoopIteration fuel m = Done r m'
  <-> exists n, (n < fuel)%nat
                /\ restoredAfter n m = true
                /\ m' = glfwPollEvents (afterWaits n m)
                /\ closeReported m' = Some (negb r).
Proof.
  split.
  - apply mainLoopIteration_returns.
  - intros (n & Hn & Hr & -> & Hc).
    destruct (mainLoopIteration_restored n fuel m Hr Hn) as (b & Hb & Hrun).
    rewrite Hb in Hc. injection Hc as ->. now rewrite negb_involutive in Hrun.
Qed.

Lemma pump_returns c :
  pumpOk c -> exists b, pumpReport c = Some b /\ returned (pump c) = Some (negb b).
Proof.
  destruct c as [[fuel n] m]. unfold pumpOk, pumpReport, pump. cbn [fst snd].
  intros [Hr Hn].
  destruct (mainLoopIteration_restored n fuel m Hr Hn) as (b & Hb & Hrun).
  exists b. split; [exact Hb |]. now rewrite Hrun.
Qed.

(** C3: in any sequence of calls, whatever the number of checks at which
    each one finds the window minimized before it is restored, every call
    returns, and returns false exactly when GLFW reports the close request at
    its end; so the calls before the first report return true and the call of
    the first report returns false. *)
Theorem mainLoopIteration_close (calls : list (nat * nat * Machine)) :
  Forall pumpOk calls ->
  (forall c, In c calls ->
     exists b, pumpReport c = Some b /\ returned (pump c) = Some (negb b))
  /\ (forall before c after,
        calls = before ++ c :: after ->
        Forall (fun c' => pumpReport c' = Some false) before ->
        pumpReport c = Some true ->
        Forall (fun c' => returned (pump c') = Some true) before
        /\ returned (pump c) = Some false).
Proof.
  intros Hall. rewrite Forall_forall in Hall.
  assert (Hone : forall c, In c calls ->
            exists b, pumpReport c = Some b /\ returned (pump c) = Some (negb b)).
  { intros c Hc. apply pump_returns, Hall, Hc. }
  split; [exact Hone |].
  intros before c after -> Hbefore Hc. split.
  - rewrite Forall_forall in *. intros c' Hc'.
    destruct (Hone c') as (b & Hb & Hr); [apply in_or_app; now left |].
    rewrite (Hbefore c' Hc') in Hb. injection Hb as <-. exact Hr.
  - destruct (Hone c) as (b & Hb & Hr); [apply in_or_app; right; now left |].
    rewrite Hc in Hb. injection Hb as <-. exact Hr.
Qed.

End PumpFacts.

(* ===================================================================== *)
(** ** Further properties of the battery counter *)
(* ===================================================================== *)

Section BatteryFacts.

Context {World : Type} {L : @Libraries World}.
Implicit Types m : @Machine World.

Lemma set_battery_same m : set_battery (battery m) m = m.
Proof. destruct m. reflexivity. Qed.

Lemma set_battery_twice (a b : Z) m : set_battery a (set_battery b m) = set_battery a m.
Proof. reflexivity. Qed.

Lemma batteryLevels_state (n : nat) : forall m,
  0 <= battery m ->
  snd (runState (batteryLevels (S n)) m)
  = set_battery ((battery m + Z.of_nat n) mod 100 + 1) m.
Proof.
  induction n as [| n IH]; intros m Hb.
  - rewrite batteryLevels_succ, getBatteryLevel_run. cbn [snd batteryLevels].
    cbn. rewrite Z.add_0_r, Z.rem_mod_nonneg by lia. reflexivity.
  - rewrite batteryLevels_succ, getBatteryLevel_run. cbn [snd].
    rewrite IH by (cbn; rewrite Z.rem_mod_nonneg by lia;
                   pose proof (Z.mod_pos_bound (battery m) 100); lia).
    cbn [battery set_battery]. rewrite set_battery_twice. f_equal.
    rewrite Z.rem_mod_nonneg by lia. rewrite Nat2Z.inj_succ.
    replace (battery m mod 100 + 1 + Z.of_nat n)
      with (battery m mod 100 + (1 + Z.of_nat n)) by lia.
    rewrite Z.add_mod_idemp_l by lia. f_equal. f_equal. lia.
Qed.

(** X1: the level returned is within 1..100 when the counter was not
    negative, and within -98..1 when it was (the C++ remainder keeps the sign
    of the counter); neither update overflows. *)
Theorem getBatteryLevel_range m :
  (0 <= battery m -> 1 <= fst (runState getBatteryLevel m) <= 100)
  /\ (battery m < 0 -> -98 <= fst (runState getBatteryLevel m) <= 1).
Proof.
  rewrite getBatteryLevel_run. cbn [fst]. split; intros Hb.
  - rewrite Z.rem_mod_nonneg by lia.
    pose proof (Z.mod_pos_bound (battery m) 100). lia.
  - pose proof (Z.rem_bound_neg_pos (battery m) 100). 
    pose proof (CIntFacts.rem_100_bounds (battery m)).
    pose proof (Z.rem_nonpos (battery m) 100). lia.
Qed.

(** X2: a counter within 1..100 is back at its value after exactly 100
    calls, and the machine with it. *)
Theorem getBatteryLevel_period m :
  1 <= battery m <= 100 -> snd (runState (batteryLevels 100) m) = m.
Proof.
  intros Hb. rewrite batteryLevels_state by lia.
  replace ((battery m + Z.of_nat 99) mod 100 + 1) with (battery m).
  - apply set_battery_same.
  - change (Z.of_nat 99) with 99.
    destruct (Z.eq_dec (battery m) 100) as [-> | Hne]; [reflexivity |].
    replace (battery m + 99) with (battery m - 1 + 1 * 100) by lia.
    rewrite Z.mod_add, Z.mod_small by lia. lia.
Qed.

(** X3: in every state the program reaches from the counter's initial
    value, the wireless level is within 0..5, and it is 5 exactly when the
    counter is at 100. *)
Theorem getWirelessLevel_range m0 m :
  (forall x, battery (glfwPollEvents x) = battery x) ->
  (forall x, battery (glfwWaitEvents x) = battery x) ->
  battery m0 = 50 -> reaches m0 m ->
  0 <= fst (runState getWirelessLevel m) <= 5
  /\ (fst (runState getWirelessLevel m) = 5 <-> battery m = 100).
Proof.
  intros Hp Hw H0 Hr. pose proof (reaches_battery m0 m Hp Hw H0 Hr) as Hb.
  unfold getWirelessLevel. cbn. unfold CInt.div.
  rewrite Z.quot_div_nonneg by lia.
  assert (H5 : 0 <= battery m / 20 <= 5).
  { split; [apply Z.div_pos; lia | apply Z.div_le_upper_bound; lia]. }
  rewrite CIntFacts.wrap_id by (unfold is_int, INT_MIN, INT_MAX; lia).
  split; [exact H5 |]. split; intros H.
  - pose proof (Z.mul_div_le (battery m) 20 ltac:(lia)). lia.
  - rewrite H. reflexivity.
Qed.

End BatteryFacts.

(* ===================================================================== *)
(** ** Further properties of the resize callback *)
(* ===================================================================== *)

Section CallbackFacts.

Context {World : Type} {L : @Libraries World}.
Implicit Types m : @Machine World.

Lemma callback_run win width height m :
  width <> 0 -> height <> 0 ->
  let W := fst (glfwGetWindowSize win (world m)) in
  let H := snd (glfwGetWindowSize win (world m)) in
  let sf := double_div (double_mul (double_of_int width) double_one) (double_of_int W) in
  snd (runState (glfwWindowFramebufferSizeCallback win width height) m)
  = set_trace
      (trace m
       ++ [ Call_glViewport 0 0 width height;
            Logger_info "windows size changed: {} height: {}" [ArgInt W; ArgInt H];
            Logger_info "framebuffer size changed: fwidth: {} fheight: {}"
                        [ArgInt width; ArgInt height];
            Logger_info "scale factor: {}" [ArgDouble sf];
            Application_onWindowResized width height ])
      (set_scaleFactor sf m).
Proof.
  intros Hw Hh. unfold glfwWindowFramebufferSizeCallback.
  replace (lnot width || lnot height) with false.
  - cbn -[double_div double_mul double_of_int]. rewrite <- !app_assoc. reflexivity.
  - symmetry. apply orb_false_iff. unfold lnot. split; apply Z.eqb_neq; assumption.
Qed.

(** X4: the callback leaves the machine as it was exactly when the
    framebuffer width or height is zero; for any other size, negative ones
    included, it sets the viewport, logs the window size, the framebuffer
    size and the scale factor it has just stored, and notifies the
    application last. *)
Theorem callback_ignores_iff_zero win width height m :
  (snd (runState (glfwWindowFramebufferSizeCallback win width height) m) = m
   <-> width = 0 \/ height = 0)
  /\ (width <> 0 -> height <> 0 ->
      exists W H,
        glfwGetWindowSize win (world m) = (W, H)
        /\ trace (snd (runState (glfwWindowFramebufferSizeCallback win width height) m))
           = trace m
             ++ [ Call_glViewport 0 0 width height;
                  Logger_info "windows size changed: {} height: {}" [ArgInt W; ArgInt H];
                  Logger_info "framebuffer size changed: fwidth: {} fheight: {}"
                              [ArgInt width; ArgInt height];
                  Logger_info "scale factor: {}"
                    [ArgDouble
                       (scaleFactor
                          (snd (runState
                                  (glfwWindowFramebufferSizeCallback win width height) m)))];
                  Application_onWindowResized width height ]).
Proof.
  split.
  - split.
    + intros H.
      destruct (Z.eq_dec width 0) as [Hw | Hw]; [now left |].
      destruct (Z.eq_dec height 0) as [Hh | Hh]; [now right |].
      exfalso. rewrite (callback_run win width height m Hw Hh) in H.
      apply (f_equal (fun x => List.length (trace x))) in H.
      cbn [trace set_trace] in H. rewrite length_app in H. cbn [List.length] in H. lia.
    + intros H. now rewrite callback_ignored.
  - intros Hw Hh. rewrite (callback_run win width height m Hw Hh).
    exists (fst (glfwGetWindowSize win (world m))), (snd (glfwGetWindowSize win (world m))).
    split; [apply surjective_pairing | reflexivity].
Qed.

(** X5: only the framebuffer size is guarded: with a window width of zero
    and a non-zero framebuffer the division goes through, and the scale
    factor becomes an infinity of the sign of the framebuffer width. *)
Theorem callback_zero_window_width win F_w F_h Hgt m :
  is_int F_w -> F_w <> 0 -> F_h <> 0 ->
  glfwGetWindowSize win (world m) = (0, Hgt) ->
  scaleFactor (snd (runState (glfwWindowFramebufferSizeCallback win F_w F_h) m))
  = S754_infinity (F_w <? 0).
Proof.
  intros Hi Hw Hh Hs. rewrite callback_scaleFactor by assumption.
  rewrite Hs. cbn [fst]. rewrite IEEEFacts.double_of_int_mul_one by exact Hi.
  destruct (IEEEFacts.double_of_int_finite F_w Hw Hi) as (mz & e & ->).
  cbn. now rewrite xorb_false_r.
Qed.

(** X6: when the framebuffer is 2^j times as wide as the window (j = 0 on
    an ordinary display, j = 1 on a HiDPI one), the scale factor is 2^j
    exactly. *)
Theorem callback_power_of_two_ratio win (W Hgt j F_h : Z) m :
  0 < W -> 0 <= j -> W * 2 ^ j <= INT_MAX -> F_h <> 0 ->
  glfwGetWindowSize win (world m) = (W, Hgt) ->
  scaleFactor (snd (runState (glfwWindowFramebufferSizeCallback win (W * 2 ^ j) F_h) m))
  = double_of_int (2 ^ j).
Proof.
  intros HW Hj Hmax Hh Hs.
  pose proof (Z.pow_pos_nonneg 2 j ltac:(lia) Hj) as Hpow.
  rewrite callback_scaleFactor by nia.
  rewrite Hs. cbn [fst].
  rewrite IEEEFacts.double_of_int_mul_one by (unfold INT_MAX in Hmax; nia).
  apply IEEEFacts.double_div_int_pow2; assumption.
Qed.

End CallbackFacts.

(* ===================================================================== *)
(** ** Further properties of the event pump *)
(* ===================================================================== *)

Section PumpMore.

Context {World : Type} {L : @Libraries World}.
Implicit Types m : @Machine World.

(** X7: as long as the window is found minimized the call does not return,
    whatever the fuel, and whether or not its closing has been requested. *)
Theorem mainLoopIteration_blocks_while_minimized (fuel : nat) : forall m,
  (forall k, iconified (afterWaits k m) = Some true) ->
  mainLoopIteration fuel m = OutOfFuel.
Proof.
  induction fuel as [| fuel IH]; intros m H; [reflexivity |].
  cbn [mainLoopIteration].
  pose proof (H O) as H0. cbn [afterWaits] in H0.
  destruct (videoContext m) as [vc |] eqn:Ev;
    [| unfold iconified in H0; rewrite Ev in H0; discriminate H0].
  rewrite (iconified_lnot m vc Ev) in H0. injection H0 as H0.
  apply negb_true_iff in H0. rewrite H0. cbn [negb].
  apply IH. intros k. exact (H (S k)).
Qed.

(** X8: the pump writes no program state of its own: whatever the
    callbacks run by [glfwPollEvents] and [glfwWaitEvents] leave alone is the
    same after a call as before. *)
Theorem mainLoopIteration_writes_nothing {B : Type} (f : @Machine World -> B)
    (fuel : nat) m (r : bool) m' :
  (forall x, f (glfwPollEvents x) = f x) ->
  (forall x, f (glfwWaitEvents x) = f x) ->
  mainLoopIteration fuel m = Done r m' -> f m' = f m.
Proof. intros Hp Hw. apply mainLoopIteration_keeps; assumption. Qed.

End PumpMore.

(* ===================================================================== *)
(** ** Construction and destruction *)
(* ===================================================================== *)

Lemma suffix_here {A : Type} (s : list A) : exists t, s = t ++ s.
Proof. now exists []. Qed.

Lemma suffix_later {A : Type} (x : A) (l s : list A) :
  (exists t, l = t ++ s) -> exists t, x :: l = t ++ s.
Proof. intros [t ->]. now exists (x :: t). Qed.

Lemma suffix_after {A : Type} (a l s : list A) :
  (exists t, l = t ++ s) -> exists t, a ++ l = a ++ t ++ s.
Proof. intros [t ->]. now exists t. Qed.

(** Find the given suffix at the end of an explicit list. *)
Ltac find_suffix :=
  apply suffix_after; repeat first [apply suffix_here | apply suffix_later].

Section LifeCycle.

Context {World : Type} {L : @Libraries World}.
Implicit Types m : @Machine World.


Lemma post_video_dtor mac this m (Q : unit -> Machine -> Prop) :
  Q tt (snd (runState (GLFWVideoContext_dtor mac this) m)) ->
  post (GLFWVideoContext_dtor mac this) m Q.
Proof.
  unfold post. destruct (runState (GLFWVideoContext_dtor mac this) m) as [[] m1].
  intros H. exact H.
Qed.

(** X10: the facade's destructor deletes what is there and skips null
    pointers: its effects are the deletions of the non-null sub-components in
    the fixed order, each at most once, and nothing but the trace changes. *)
Theorem dtor_skips_null mac m :
  snd (runState (GLFWPlatform_dtor mac) m)
  = set_trace
      (trace m
       ++ match fontLoader m with Some o => [Delete_fontLoader o] | None => [] end
       ++ match audioPlayer m with Some o => [Delete_audioPlayer o] | None => [] end
       ++ match videoContext m with
          | Some vc => trace (snd (runState (GLFWVideoContext_dtor mac vc) (set_trace [] m)))
          | None => []
          end
       ++ match inputManager m with Some o => [Delete_inputManager o] | None => [] end) m.
Proof.
  change (post (GLFWPlatform_dtor mac) m (fun _ m' => m' = set_trace
      (trace m
       ++ match fontLoader m with Some o => [Delete_fontLoader o] | None => [] end
       ++ match audioPlayer m with Some o => [Delete_audioPlayer o] | None => [] end
       ++ match videoContext m with
          | Some vc => trace (snd (runState (GLFWVideoContext_dtor mac vc) (set_trace [] m)))
          | None => []
          end
       ++ match inputManager m with Some o => [Delete_inputManager o] | None => [] end) m)).
  unfold GLFWPlatform_dtor. destruct m as [b sf tv fl ap vc im env tr w]. fields. wp;
    try (apply post_video_dtor; wp);
    rewrite ?video_dtor_trace; cbn [trace set_trace world app];
    rewrite <- ?app_assoc; cbn [app]; rewrite ?app_nil_r;
    reflexivity.
Qed.

(** X11: when GLFW initialises, [createWindow] returns normally with the
    video context in place and an input manager built on the very window
    that [glfwCreateWindow] returned: also when that is the null pointer,
    for the constructor's failure is not looked at. *)
Theorem createWindow_wires_input_manager mac fresh title w h m :
  truthy (fst (glfwInit (world m))) = true ->
  let win := fst (glfwCreateWindow (CInt.wrap w) (CInt.wrap h) (c_str title)
                    (snd (glfwInit (world m)))) in
  fst (runState (createWindow mac fresh title w h) m) = Normal tt
  /\ (exists vc, videoContext (snd (runState (createWindow mac fresh title w h) m)) = Some vc
                 /\ window vc = win)
  /\ inputManager (snd (runState (createWindow mac fresh title w h) m))
     = Some (new_GLFWInputManager win).
Proof.
  intros Hok. cbv zeta.
  destruct m as [b sf tv fl ap vc im env tr wd]. fields.
  set (win := fst (glfwCreateWindow (CInt.wrap w) (CInt.wrap h) (c_str title)
                     (snd (glfwInit wd)))).
  change (post (createWindow mac fresh title w h)
            {| battery := b; scaleFactor := sf; themeVariant := tv; fontLoader := fl;
               audioPlayer := ap; videoContext := vc; inputManager := im;
               environ := env; trace := tr; world := wd |}
            (fun r m' => r = Normal tt
                         /\ (exists vc, videoContext m' = Some vc /\ window vc = win)
                         /\ inputManager m' = Some (new_GLFWInputManager win))).
  unfold truthy in Hok. apply negb_true_iff in Hok. subst win.
  unfold createWindow, GLFWVideoContext_ctor, windowHints, fatal,
    glfwWindowFramebufferSizeCallback.
  wp; unfold lnot in *;
    try congruence;
    (split; [reflexivity | split; [eexists; split; [reflexivity |] |]]);
    fields; congruence.
Qed.


(** X13: a facade that is constructed and destroyed without a window in
    between deletes its font loader and its audio player and nothing else:
    GLFW, initialised by the constructor, is never terminated. *)
Theorem platform_without_window_never_terminates mac m :
  videoContext m = None -> inputManager m = None ->
  truthy (fst (glfwInit (world m))) = true ->
  trace (snd (runState (GLFWPlatform_ctor ;; GLFWPlatform_dtor mac) m))
  = trace m
    ++ [ Call_glfwSetErrorCallback;
         Call_glfwInitHint K.GLFW_JOYSTICK_HAT_BUTTONS K.GLFW_TRUE;
         Call_glfwInit (fst (glfwInit (world m)));
         Call_glfwSetTime (S754_zero false);
         Delete_fontLoader new_GLFWFontLoader;
         Delete_audioPlayer new_NullAudioPlayer ].
Proof.
  destruct m as [b sf tv fl ap vc im env tr wd]. fields.
  intros -> -> Hok. unfold truthy in Hok. apply negb_true_iff in Hok.
  change (post (GLFWPlatform_ctor ;; GLFWPlatform_dtor mac)
            {| battery := b; scaleFactor := sf; themeVariant := tv; fontLoader := fl;
               audioPlayer := ap; videoContext := None; inputManager := None;
               environ := env; trace := tr; world := wd |}
            (fun _ m' => trace m' = tr
               ++ [ Call_glfwSetErrorCallback;
                    Call_glfwInitHint K.GLFW_JOYSTICK_HAT_BUTTONS K.GLFW_TRUE;
                    Call_glfwInit (fst (glfwInit wd));
                    Call_glfwSetTime (S754_zero false);
                    Delete_fontLoader new_GLFWFontLoader;
                    Delete_audioPlayer new_NullAudioPlayer ])).
  unfold GLFWPlatform_ctor, GLFWPlatform_dtor.
  wp; unfold lnot in *; try congruence; rewrite <- ?app_assoc; reflexivity.
Qed.

(** X14: when GLFW fails to initialise, the facade's constructor logs the
    failure and stops: no font loader and no audio player is created (the two
    pointers are as on entry), the timer is not reset. *)
Theorem ctor_failure_allocates_nothing m :
  truthy (fst (glfwInit (world m))) = false ->
  snd (runState GLFWPlatform_ctor m)
  = set_trace
      (trace m
       ++ [ Call_glfwSetErrorCallback;
            Call_glfwInitHint K.GLFW_JOYSTICK_HAT_BUTTONS K.GLFW_TRUE;
            Call_glfwInit (fst (glfwInit (world m)));
            Logger_error "glfw: failed to initialize" [] ])
      (set_world (snd (glfwInit (world m))) (set_themeVariant LIGHT m)).
Proof.
  destruct m as [b sf tv fl ap vc im env tr wd]. fields.
  intros Hok. unfold truthy in Hok. apply negb_false_iff in Hok.
  change (post GLFWPlatform_ctor
            {| battery := b; scaleFactor := sf; themeVariant := tv; fontLoader := fl;
               audioPlayer := ap; videoContext := vc; inputManager := im;
               environ := env; trace := tr; world := wd |}
            (fun _ m' => m' =
               {| battery := b; scaleFactor := sf; themeVariant := LIGHT; fontLoader := fl;
                  audioPlayer := ap; videoContext := vc; inputManager := im;
                  environ := env;
                  trace := tr
                    ++ [ Call_glfwSetErrorCallback;
                         Call_glfwInitHint K.GLFW_JOYSTICK_HAT_BUTTONS K.GLFW_TRUE;
                         Call_glfwInit (fst (glfwInit wd));
                         Logger_error "glfw: failed to initialize" [] ];
                  world := snd (glfwInit wd) |})).
  unfold GLFWPlatform_ctor.
  wp; unfold lnot in *; try congruence; rewrite <- ?app_assoc; reflexivity.
Qed.

(** X15: a construction that succeeds ends by one run of the resize
    callback on the framebuffer size GLFW gives: with a non-zero framebuffer
    of width F_w on a window of width W the scale factor is the binary64
    quotient F_w / W from the start; with a zero framebuffer (a window born
    minimized) it is left at its previous value. *)
Theorem video_ctor_initial_scale mac fresh title w h m win nvg F_w F_h W Hgt :
  truthy (fst (glfwInit (world m))) = true ->
  fst (ctor_window title w h (world m)) = Some win ->
  fst (ctor_nvg mac title w h (world m)) = Some nvg ->
  glfwGetFramebufferSize (Some win) (snd (ctor_nvg mac title w h (world m))) = (F_w, F_h) ->
  glfwGetWindowSize (Some win) (snd (ctor_nvg mac title w h (world m))) = (W, Hgt) ->
  is_int F_w ->
  (exists vc, fst (runState (GLFWVideoContext_ctor mac fresh title w h) m) = Normal vc
              /\ window vc = Some win /\ nvgContext vc = Some nvg)
  /\ scaleFactor (snd (runState (GLFWVideoContext_ctor mac fresh title w h) m))
     = if (F_w =? 0) || (F_h =? 0) then scaleFactor m
       else double_div (double_of_int F_w) (double_of_int W).
Proof.
  destruct m as [b sf tv fl ap vc im env tr wd]. fields.
  unfold ctor_nvg, ctor_window.
  intros Hok Hwin Hnvg Hfb Hws Hi. unfold truthy in Hok. apply negb_true_iff in Hok.
  change (post (GLFWVideoContext_ctor mac fresh title w h)
            {| battery := b; scaleFactor := sf; themeVariant := tv; fontLoader := fl;
               audioPlayer := ap; videoContext := vc; inputManager := im;
               environ := env; trace := tr; world := wd |}
            (fun r m' =>
               (exists vc, r = Normal vc /\ window vc = Some win /\ nvgContext vc = Some nvg)
               /\ scaleFactor m' = if (F_w =? 0) || (F_h =? 0) then sf
                                   else double_div (double_of_int F_w) (double_of_int W))).
  unfold GLFWVideoContext_ctor, windowHints, fatal, glfwWindowFramebufferSizeCallback.
  wp; unfold lnot in *; try congruence;
    repeat match goal with
           | H : Some ?a = Some _ |- _ => injection H as H; subst a
           end;
    try (rewrite Hfb in *; fields);
    try (rewrite Hws in *; fields);
    match goal with
    | H : (?a =? 0) || (?b =? 0) = _ |- _ => rewrite H
    end;
    (split; [eexists; split; [reflexivity | fields; split; congruence] |]);
    try reflexivity;
    now rewrite IEEEFacts.double_of_int_mul_one by exact Hi.
Qed.

(** X16: when the window cannot be created, the constructor logs it,
    terminates GLFW and returns an object with a null window, the scale
    factor untouched; the destructor of that object then passes the null
    pointer to [glfwDestroyWindow] and terminates GLFW a second time. *)
Theorem video_ctor_window_failure mac fresh title w h m :
  truthy (fst (glfwInit (world m))) = true ->
  fst (ctor_window title w h (world m)) = None ->
  nvgContext fresh = None ->
  fst (runState (GLFWVideoContext_ctor mac fresh title w h) m)
  = Normal (with_window None fresh)
  /\ scaleFactor (snd (runState (GLFWVideoContext_ctor mac fresh title w h) m))
     = scaleFactor m
  /\ exists t,
       trace (snd (runState
                (r <- GLFWVideoContext_ctor mac fresh title w h ;;
                 match r with
                 | Normal this => GLFWVideoContext_dtor mac this
                 | Thrown _ => ret tt
                 end) m))
       = trace m ++ t
         ++ [ Logger_error "glfw: failed to create window" [];
              Call_glfwTerminate;
              Call_glfwDestroyWindow None;
              Call_glfwTerminate ].
Proof.
  destruct m as [b sf tv fl ap vc im env tr wd]. fields. unfold ctor_window.
  intros Hok Hwin Hfresh. unfold truthy in Hok. apply negb_true_iff in Hok.
  split; [| split].
  - change (post (GLFWVideoContext_ctor mac fresh title w h)
              {| battery := b; scaleFactor := sf; themeVariant := tv; fontLoader := fl;
                 audioPlayer := ap; videoContext := vc; inputManager := im;
                 environ := env; trace := tr; world := wd |}
              (fun r _ => r = Normal (with_window None fresh))).
    unfold GLFWVideoContext_ctor, windowHints, fatal, glfwWindowFramebufferSizeCallback.
    wp; unfold lnot in *; congruence.
  - change (post (GLFWVideoContext_ctor mac fresh title w h)
              {| battery := b; scaleFactor := sf; themeVariant := tv; fontLoader := fl;
                 audioPlayer := ap; videoContext := vc; inputManager := im;
                 environ := env; trace := tr; world := wd |}
              (fun _ m' => scaleFactor m' = sf)).
    unfold GLFWVideoContext_ctor, windowHints, fatal, glfwWindowFramebufferSizeCallback.
    wp; unfold lnot in *; congruence.
  - change (post (r <- GLFWVideoContext_ctor mac fresh title w h ;;
                  match r with
                  | Normal this => GLFWVideoContext_dtor mac this
                  | Thrown _ => ret tt
                  end)
              {| battery := b; scaleFactor := sf; themeVariant := tv; fontLoader := fl;
                 audioPlayer := ap; videoContext := vc; inputManager := im;
                 environ := env; trace := tr; world := wd |}
              (fun _ m' => exists t, trace m' = tr ++ t
                 ++ [ Logger_error "glfw: failed to create window" [];
                      Call_glfwTerminate;
                      Call_glfwDestroyWindow None;
                      Call_glfwTerminate ])).
    unfold GLFWVideoContext_ctor, GLFWVideoContext_dtor, windowHints, fatal,
      glfwWindowFramebufferSizeCallback.
    wp; unfold lnot in *; try congruence;
      rewrite <- ?app_assoc; cbn [app];
      match goal with
      | |- exists t, ?tr ++ ?x = ?tr ++ t ++ _ => idtac
      end.
    all: find_suffix.
Qed.

(** X17: when the renderer context cannot be created, the constructor
    logs it and terminates GLFW, yet returns an object that still holds the
    window's handle, with a null renderer context and the scale factor
    untouched; its destructor then deletes no renderer context, destroys that
    window and terminates GLFW again. *)
Theorem video_ctor_renderer_failure mac fresh title w h m win :
  truthy (fst (glfwInit (world m))) = true ->
  fst (ctor_window title w h (world m)) = Some win ->
  fst (ctor_nvg mac title w h (world m)) = None ->
  fst (runState (GLFWVideoContext_ctor mac fresh title w h) m)
  = Normal (with_nvgContext None (with_window (Some win) fresh))
  /\ scaleFactor (snd (runState (GLFWVideoContext_ctor mac fresh title w h) m))
     = scaleFactor m
  /\ exists t,
       trace (snd (runState
                (r <- GLFWVideoContext_ctor mac fresh title w h ;;
                 match r with
                 | Normal this => GLFWVideoContext_dtor mac this
                 | Thrown _ => ret tt
                 end) m))
       = trace m ++ t
         ++ [ Call_nvgCreate (def_PSV mac) (Z.lor K.NVG_STENCIL_STROKES K.NVG_ANTIALIAS) None;
              Logger_error "glfw: unable to init nanovg" [];
              Call_glfwTerminate;
              Call_glfwDestroyWindow (Some win);
              Call_glfwTerminate ].
Proof.
  destruct m as [b sf tv fl ap vc im env tr wd]. fields. unfold ctor_nvg, ctor_window.
  intros Hok Hwin Hnvg. unfold truthy in Hok. apply negb_true_iff in Hok.
  split; [| split].
  - change (post (GLFWVideoContext_ctor mac fresh title w h)
              {| battery := b; scaleFactor := sf; themeVariant := tv; fontLoader := fl;
                 audioPlayer := ap; videoContext := vc; inputManager := im;
                 environ := env; trace := tr; world := wd |}
              (fun r _ => r = Normal (with_nvgContext None (with_window (Some win) fresh)))).
    unfold GLFWVideoContext_ctor, windowHints, fatal, glfwWindowFramebufferSizeCallback.
    wp; unfold lnot in *; congruence.
  - change (post (GLFWVideoContext_ctor mac fresh title w h)
              {| battery := b; scaleFactor := sf; themeVariant := tv; fontLoader := fl;
                 audioPlayer := ap; videoContext := vc; inputManager := im;
                 environ := env; trace := tr; world := wd |}
              (fun _ m' => scaleFactor m' = sf)).
    unfold GLFWVideoContext_ctor, windowHints, fatal, glfwWindowFramebufferSizeCallback.
    wp; unfold lnot in *; congruence.
  - change (post (r <- GLFWVideoContext_ctor mac fresh title w h ;;
                  match r with
                  | Normal this => GLFWVideoContext_dtor mac this
                  | Thrown _ => ret tt
                  end)
              {| battery := b; scaleFactor := sf; themeVariant := tv; fontLoader := fl;
                 audioPlayer := ap; videoContext := vc; inputManager := im;
                 environ := env; trace := tr; world := wd |}
              (fun _ m' => exists t, trace m' = tr ++ t
                 ++ [ Call_nvgCreate (def_PSV mac)
                        (Z.lor K.NVG_STENCIL_STROKES K.NVG_ANTIALIAS) None;
                      Logger_error "glfw: unable to init nanovg" [];
                      Call_glfwTerminate;
                      Call_glfwDestroyWindow (Some win);
                      Call_glfwTerminate ])).
    unfold GLFWVideoContext_ctor, GLFWVideoContext_dtor, windowHints, fatal,
      glfwWindowFramebufferSizeCallback.
    wp; unfold lnot in *; try congruence;
      repeat match goal with
             | H : Some ?a = Some _ |- _ => injection H as H; subst a
             end;
      rewrite <- ?app_assoc; cbn [app].
    all: find_suffix.
Qed.

End LifeCycle.

(* ===================================================================== *)
(** ** Smaller operations *)
(* ===================================================================== *)

Section Operations.

Context {World : Type} {L : @Libraries World}.
Implicit Types m : @Machine World.


(** X19: [beginFrame] resizes the window only when the display mode has
    changed since it last looked: run again on the object it returns, with
    nothing else in between, it does nothing; off the Switch it never does
    anything. *)
Theorem beginFrame_settles mac this m :
  runState (beginFrame mac (fst (runState (beginFrame mac this) m)))
           (snd (runState (beginFrame mac this) m))
  = runState (beginFrame mac this) m
  /\ (def_SWITCH mac = false -> runState (beginFrame mac this) m = (this, m)).
Proof.
  destruct m as [b sf tv fl ap vc im env tr wd].
  unfold beginFrame. destruct (def_SWITCH mac); [| split; reflexivity].
  split; [| discriminate]. cbn.
  destruct (negb (oldWidth this =? fst (glfwGetVideoMode (monitor this) wd))
            || negb (oldHeight this =? snd (glfwGetVideoMode (monitor this) wd))) eqn:E;
    cbn.
  - rewrite !Z.eqb_refl. reflexivity.
  - rewrite E. reflexivity.
Qed.

(** X20: which call writes which part of the state: the scale factor is
    written by the resize callback and by [createWindow] only, the theme by
    the constructor and by [setThemeVariant] only, the battery counter by
    [getBatteryLevel] only, and no call writes the environment. *)
Theorem state_writers (c : Call) :
  match c with
  | C_framebufferSize _ _ _ | C_createWindow _ _ _ _ _ => True
  | _ => keeps scaleFactor (perform c)
  end
  /\ match c with
     | C_ctor | C_setThemeVariant _ => True
     | _ => keeps themeVariant (perform c)
     end
  /\ match c with
     | C_getBatteryLevel => True
     | _ => keeps battery (perform c)
     end
  /\ keeps environ (perform c).
Proof.
  destruct c; repeat split; cbn [perform];
    try (destruct q; cbn [query]);
    unfold GLFWPlatform_ctor, createWindow, GLFWVideoContext_ctor, windowHints, fatal,
      glfwWindowFramebufferSizeCallback, getBatteryLevel, exitToHomeMode,
      forceEnableGamePlayRecording, openBrowser, setThemeVariant, beginFrame, endFrame,
      clear, resetState, disableScreenDimming, GLFWPlatform_dtor, GLFWVideoContext_dtor;
    unfold_queries; keeps_tac.
Qed.

End Operations.

(* ===================================================================== *)
(** ** The properties at work on the demonstration window system *)
(* ===================================================================== *)

(** From the initial 50, the 49th call returns 99 and the 50th returns 100,
    where the spec's formula gives 1; the 51st returns 1. *)
Lemma getBatteryLevel_returns_100 :
  let levels := fst (runState (batteryLevels 51) (startMachine [] demoWorld)) in
  nth 48 levels 0 = 99 /\ nth 49 levels 0 = 100 /\ claimed_next 99 = 1
  /\ nth 50 levels 0 = 1.
Proof. vm_compute. repeat split. Qed.

Lemma getBatteryLevel_cycle_witness :
  fst (runState (batteryLevels 51) (startMachine [] demoWorld))
  = map (fun k => (50 + Z.of_nat k) mod 100 + 1) (seq 0 51).
Proof.
  apply (proj2 (getBatteryLevel_cycle (startMachine [] demoWorld) 51)).
  cbn. lia.
Defined.

Lemma getWirelessLevel_floor_witness :
  runState getWirelessLevel
    (execState (perform (L := demoLibraries) C_getBatteryLevel) (startMachine [] demoWorld))
  = (2, execState (perform (L := demoLibraries) C_getBatteryLevel) (startMachine [] demoWorld)).
Proof.
  apply (getWirelessLevel_floor (L := demoLibraries) (startMachine [] demoWorld)).
  - intros x. reflexivity.
  - intros x. reflexivity.
  - reflexivity.
  - eapply reaches_step; [apply reaches_start | apply step_call].
Defined.

Lemma getLocale_env_witness :
  runState (getLocale (L := demoLibraries))
           (startMachine [("BOREALIS_LANG", "xx-not-a-locale")]%string demoWorld)
  = ("xx-not-a-locale"%string,
     startMachine [("BOREALIS_LANG", "xx-not-a-locale")]%string demoWorld).
Proof.
  apply (proj2 (getLocale_env (L := demoLibraries)
                  (startMachine [("BOREALIS_LANG", "xx-not-a-locale")]%string demoWorld)));
    reflexivity.
Defined.

(** GLFW fails to start while [BOREALIS_THEME] is "dark": the theme stays
    light. *)
Lemma theme_light_when_init_fails :
  let m := startMachine [("BOREALIS_THEME", "dark")]%string failingWorld in
  getenv "BOREALIS_THEME" (environ m) = Some "dark"%string
  /\ is_dark "dark" = true
  /\ themeVariant (snd (runState (GLFWPlatform_ctor (L := demoLibraries)) m)) = LIGHT.
Proof. vm_compute. repeat split. Qed.

Lemma theme_selection_witness :
  themeVariant
    (snd (runState (GLFWPlatform_ctor (L := demoLibraries))
            (startMachine [("BOREALIS_THEME", "DaRk")]%string demoWorld)))
  = DARK.
Proof.
  apply (proj2 (proj1 (theme_selection (L := demoLibraries)
                  (startMachine [("BOREALIS_THEME", "DaRk")]%string demoWorld))
                  eq_refl) "DaRk"%string);
    reflexivity.
Defined.

Lemma framebuffer_scale_factor_witness :
  scaleFactor
    (snd (runState
            (glfwWindowFramebufferSizeCallback (L := demoLibraries) (Some 7%positive) 2560 1440)
            (runningMachine demoWorld)))
  = double_div (double_of_int 2560) (double_of_int 1280).
Proof.
  apply (proj1 (framebuffer_scale_factor (L := demoLibraries)
                  (Some 7%positive) 1280 720 2560 1440 (runningMachine demoWorld)));
    unfold is_int, INT_MIN, INT_MAX; try lia; reflexivity.
Defined.

Lemma dtor_order_witness :
  trace (snd (runState (GLFWPlatform_dtor (L := demoLibraries) desktop)
                       (runningMachine demoWorld)))
  = [ Delete_fontLoader new_GLFWFontLoader;
      Delete_audioPlayer new_NullAudioPlayer;
      Call_nvgDelete false 9%positive;
      Call_glfwDestroyWindow (Some 7%positive);
      Call_glfwTerminate;
      Delete_inputManager (new_GLFWInputManager (Some 7%positive)) ].
Proof.
  apply (dtor_order (L := demoLibraries) desktop (runningMachine demoWorld)
           new_GLFWFontLoader new_NullAudioPlayer demoVideoContext
           (new_GLFWInputManager (Some 7%positive)));
    reflexivity.
Defined.

(** Three calls: the window is restored at once, then after two waits, then
    (the close flag now set) after one wait. *)
Lemma mainLoopIteration_close_witness :
  map (fun c => returned (pump (L := demoLibraries) c))
      [ (5%nat, 0%nat, runningMachine (minimizedWorld 0 0));
        (5%nat, 2%nat, runningMachine (minimizedWorld 2 0));
        (5%nat, 1%nat, runningMachine (minimizedWorld 1 1)) ]
  = [Some true; Some true; Some false].
Proof.
  pose proof (mainLoopIteration_close (L := demoLibraries)
      [ (5%nat, 0%nat, runningMachine (minimizedWorld 0 0));
        (5%nat, 2%nat, runningMachine (minimizedWorld 2 0));
        (5%nat, 1%nat, runningMachine (minimizedWorld 1 1)) ]) as H.
  assert (Hok : Forall (pumpOk (L := demoLibraries))
      [ (5%nat, 0%nat, runningMachine (minimizedWorld 0 0));
        (5%nat, 2%nat, runningMachine (minimizedWorld 2 0));
        (5%nat, 1%nat, runningMachine (minimizedWorld 1 1)) ]).
  { repeat constructor; cbn; lia. }
  destruct (proj2 (H Hok)
              [ (5%nat, 0%nat, runningMachine (minimizedWorld 0 0));
                (5%nat, 2%nat, runningMachine (minimizedWorld 2 0)) ]
              (5%nat, 1%nat, runningMachine (minimizedWorld 1 1))
              [] eq_refl) as [Hb Hc].
  - repeat constructor.
  - reflexivity.
  - inversion Hb as [| c1 l1 R1 Hb' E1]. inversion Hb' as [| c2 l2 R2 Hb'' E2].
    cbn [map]. now rewrite R1, R2, Hc.
Defined.

Lemma getBatteryLevel_range_witness :
  1 <= fst (runState getBatteryLevel (startMachine [] demoWorld)) <= 100.
Proof.
  apply (proj1 (getBatteryLevel_range (startMachine [] demoWorld))). cbn. lia.
Defined.

Lemma getBatteryLevel_period_witness :
  snd (runState (batteryLevels 100) (startMachine [] demoWorld))
  = startMachine [] demoWorld.
Proof. apply getBatteryLevel_period. cbn. lia. Defined.

Lemma getWirelessLevel_range_witness :
  0 <= fst (runState getWirelessLevel (startMachine [] demoWorld)) <= 5
  /\ (fst (runState getWirelessLevel (startMachine [] demoWorld)) = 5
      <-> battery (startMachine [] demoWorld) = 100).
Proof.
  apply (getWirelessLevel_range (L := demoLibraries) (startMachine [] demoWorld)).
  - intros x. reflexivity.
  - intros x. reflexivity.
  - reflexivity.
  - apply reaches_start.
Defined.

Lemma callback_ignores_iff_zero_witness :
  exists W H,
    glfwGetWindowSize (Libraries := demoLibraries) (Some 7%positive)
      (world (runningMachine demoWorld)) = (W, H)
    /\ trace (snd (runState
                (glfwWindowFramebufferSizeCallback (L := demoLibraries)
                   (Some 7%positive) (-3) 5)
                (runningMachine demoWorld)))
       = trace (runningMachine demoWorld)
         ++ [ Call_glViewport 0 0 (-3) 5;
              Logger_info "windows size changed: {} height: {}" [ArgInt W; ArgInt H];
              Logger_info "framebuffer size changed: fwidth: {} fheight: {}"
                          [ArgInt (-3); ArgInt 5];
              Logger_info "scale factor: {}"
                [ArgDouble
                   (scaleFactor
                      (snd (runState
                              (glfwWindowFramebufferSizeCallback (L := demoLibraries)
                                 (Some 7%positive) (-3) 5)
                              (runningMachine demoWorld))))];
              Application_onWindowResized (-3) 5 ].
Proof.
  apply (proj2 (callback_ignores_iff_zero (L := demoLibraries)
                  (Some 7%positive) (-3) 5 (runningMachine demoWorld))); lia.
Defined.

Lemma callback_zero_window_width_witness :
  scaleFactor
    (snd (runState
            (glfwWindowFramebufferSizeCallback (L := demoLibraries) (Some 7%positive) 2560 1440)
            (runningMachine zeroWidthWorld)))
  = S754_infinity false.
Proof.
  apply (callback_zero_window_width (L := demoLibraries)
           (Some 7%positive) 2560 1440 720 (runningMachine zeroWidthWorld));
    unfold is_int, INT_MIN, INT_MAX; try lia; reflexivity.
Defined.

Lemma callback_power_of_two_ratio_witness :
  scaleFactor
    (snd (runState
            (glfwWindowFramebufferSizeCallback (L := demoLibraries)
               (Some 7%positive) (1280 * 2 ^ 1) 1440)
            (runningMachine demoWorld)))
  = double_of_int (2 ^ 1).
Proof.
  apply (callback_power_of_two_ratio (L := demoLibraries)
           (Some 7%positive) 1280 720 1 1440 (runningMachine demoWorld));
    unfold INT_MAX; try lia; reflexivity.
Defined.

(** Minimized for good, with the close flag set: the call is still running
    after a thousand turns. *)
Lemma mainLoopIteration_blocks_while_minimized_witness :
  mainLoopIteration (L := frozenLibraries) 1000 (runningMachine (minimizedWorld 1 1))
  = OutOfFuel.
Proof.
  apply (mainLoopIteration_blocks_while_minimized (L := frozenLibraries)).
  intros k.
  assert (H : afterWaits (L := frozenLibraries) k (runningMachine (minimizedWorld 1 1))
              = runningMachine (minimizedWorld 1 1)).
  { induction k as [| k IH]; [reflexivity | exact IH]. }
  rewrite H. reflexivity.
Defined.

Lemma mainLoopIteration_writes_nothing_witness :
  battery (runningMachine (demo_wait (demo_wait (minimizedWorld 2 0))))
  = battery (runningMachine (minimizedWorld 2 0)).
Proof.
  apply (mainLoopIteration_writes_nothing (L := demoLibraries) battery 5
           (runningMachine (minimizedWorld 2 0)) true
           (runningMachine (demo_wait (demo_wait (minimizedWorld 2 0))))).
  - intros x. reflexivity.
  - intros x. reflexivity.
  - reflexivity.
Defined.

Lemma createWindow_wires_input_manager_witness :
  inputManager
    (snd (runState (createWindow (L := demoLibraries) desktop freshVideoContext
                      "demo" 1280 720)
                   (startMachine [] noWindowWorld)))
  = Some (new_GLFWInputManager None).
Proof.
  apply (proj2 (proj2 (createWindow_wires_input_manager (L := demoLibraries)
                         desktop freshVideoContext "demo" 1280 720
                         (startMachine [] noWindowWorld) eq_refl))).
Defined.

Lemma platform_without_window_never_terminates_witness :
  trace (snd (runState (GLFWPlatform_ctor (L := demoLibraries) ;;
                        GLFWPlatform_dtor (L := demoLibraries) desktop)
                       (startMachine [] demoWorld)))
  = [ Call_glfwSetErrorCallback;
      Call_glfwInitHint K.GLFW_JOYSTICK_HAT_BUTTONS K.GLFW_TRUE;
      Call_glfwInit 1;
      Call_glfwSetTime (S754_zero false);
      Delete_fontLoader new_GLFWFontLoader;
      Delete_audioPlayer new_NullAudioPlayer ].
Proof.
  apply (platform_without_window_never_terminates (L := demoLibraries) desktop
           (startMachine [] demoWorld)); reflexivity.
Defined.

Lemma ctor_failure_allocates_nothing_witness :
  fontLoader (snd (runState (GLFWPlatform_ctor (L := demoLibraries))
                            (startMachine [] failingWorld))) = None
  /\ audioPlayer (snd (runState (GLFWPlatform_ctor (L := demoLibraries))
                               (startMachine [] failingWorld))) = None.
Proof.
  rewrite (ctor_failure_allocates_nothing (L := demoLibraries)
             (startMachine [] failingWorld) eq_refl).
  split; reflexivity.
Defined.

Lemma video_ctor_initial_scale_witness :
  scaleFactor
    (snd (runState (GLFWVideoContext_ctor (L := demoLibraries) desktop freshVideoContext
                      "demo" 1280 720)
                   (startMachine [] demoWorld)))
  = double_div (double_of_int 2560) (double_of_int 1280).
Proof.
  apply (proj2 (video_ctor_initial_scale (L := demoLibraries) desktop freshVideoContext
                  "demo" 1280 720 (startMachine [] demoWorld)
                  7%positive 9%positive 2560 1440 1280 720
                  eq_refl eq_refl eq_refl eq_refl eq_refl
                  ltac:(unfold is_int, INT_MIN, INT_MAX; lia))).
Defined.

Lemma video_ctor_window_failure_witness :
  fst (runState (GLFWVideoContext_ctor (L := demoLibraries) desktop freshVideoContext
                   "demo" 1280 720)
                (startMachine [] noWindowWorld))
  = Normal (with_window None freshVideoContext).
Proof.
  apply (proj1 (video_ctor_window_failure (L := demoLibraries) desktop freshVideoContext
                  "demo" 1280 720 (startMachine [] noWindowWorld)
                  eq_refl eq_refl eq_refl)).
Defined.

Lemma video_ctor_renderer_failure_witness :
  fst (runState (GLFWVideoContext_ctor (L := demoLibraries) desktop freshVideoContext
                   "demo" 1280 720)
                (startMachine [] noRendererWorld))
  = Normal (with_nvgContext None (with_window (Some 7%positive) freshVideoContext)).
Proof.
  apply (proj1 (video_ctor_renderer_failure (L := demoLibraries) desktop freshVideoContext
                  "demo" 1280 720 (startMachine [] noRendererWorld) 7%positive
                  eq_refl eq_refl eq_refl)).
Defined.

